(** * The quantile ("pinball") regression objective of XGBoost

    A shallow embedding of [src/objective/quantile_obj.cu]
    (class [xgboost::obj::QuantileRegression]) and the properties of it
    stated in the specification.

    Numbers are IEEE-754 values: C++ [float] is binary32 and [double] is
    binary64, both given by the executable specification of the Standard
    Library ([SpecFloat], precision and exponent range as parameters).
    Assertion failures ([CHECK], [CHECK_EQ], ...) abort the call; they are
    values of an error type, threaded through a state-and-error monad whose
    state is the buffer the C++ method mutates through its out-pointer. *)

From Stdlib Require Import ZArith Lia SpecFloat.
From stdpp Require Import base option list gmap strings.

Local Open Scope Z_scope.

(** ** IEEE-754 arithmetic *)

(** C++ [float]: binary32, round to nearest even. *)
Module Float.
Definition prec : Z := 24.
Definition emax : Z := 128.
Definition zero : spec_float := S754_zero false.
Definition of_Z (n : Z) : spec_float := binary_normalize prec emax n 0 false.
Definition one : spec_float := Eval vm_compute in of_Z 1.
Definition add : spec_float -> spec_float -> spec_float := SFadd prec emax.
Definition sub : spec_float -> spec_float -> spec_float := SFsub prec emax.
Definition mul : spec_float -> spec_float -> spec_float := SFmul prec emax.
Definition div : spec_float -> spec_float -> spec_float := SFdiv prec emax.
Definition neg : spec_float -> spec_float := SFopp.
(** [x >= y], false as soon as one side is NaN. *)
Definition ge (x y : spec_float) : bool := SFleb y x.
Definition lt (x y : spec_float) : bool := SFltb x y.
Definition is_zero (x : spec_float) : bool :=
  match x with S754_zero _ => true | _ => false end.
End Float.

(** C++ [double]: binary64, round to nearest even. *)
Module Double.
Definition prec : Z := 53.
Definition emax : Z := 1024.
Definition zero : spec_float := S754_zero false.
Definition of_Z (n : Z) : spec_float := binary_normalize prec emax n 0 false.
Definition add : spec_float -> spec_float -> spec_float := SFadd prec emax.
Definition sub : spec_float -> spec_float -> spec_float := SFsub prec emax.
Definition mul : spec_float -> spec_float -> spec_float := SFmul prec emax.
Definition div : spec_float -> spec_float -> spec_float := SFdiv prec emax.
Definition le (x y : spec_float) : bool := SFleb x y.
Definition ge (x y : spec_float) : bool := SFleb y x.
(** The implicit conversion [float -> double]; exact. *)
Definition of_float (x : spec_float) : spec_float :=
  match x with
  | S754_finite s m e => binary_normalize prec emax (cond_Zopp s (Zpos m)) e s
  | _ => x
  end.
(** The narrowing conversion [double -> float]; rounds. *)
Definition to_float (x : spec_float) : spec_float :=
  match x with
  | S754_finite s m e =>
      binary_normalize Float.prec Float.emax (cond_Zopp s (Zpos m)) e s
  | _ => x
  end.
(** [std::floor] of a finite value, as an integer. *)
Definition floor (x : spec_float) : Z :=
  match x with
  | S754_finite s m e =>
      if 0 <=? e then cond_Zopp s (Zpos m) * 2 ^ e
      else cond_Zopp s (Zpos m) / 2 ^ (- e)
  | _ => 0
  end.
End Double.

Abbreviation float := spec_float.
Abbreviation double := spec_float.

(** ** Machine integers *)

(** [std::size_t] (and [decltype(info.num_row_)]) is 64 bits wide. *)
Definition to_size_t (n : Z) : Z := n mod 2 ^ 64.

(** ** Errors

    The C++ code has one failure channel, a fatal log entry raised by a
    failed [CHECK]. The specification (section 7) names the failures; each
    [CHECK] of the source is tagged below with the name the specification
    gives to the condition it guards. [OutOfBounds] is a read or write
    outside a span or tensor (a checked abort for [Span], undefined for a
    tensor view), [InputCheckError] a failure of [CheckInitInputs],
    [GPUSupportError] is [common::AssertGPUSupport] in a build without CUDA,
    [JsonTypeError] a JSON value of the wrong kind. *)
Inductive error : Set :=
| ConfigurationError
| UnsupportedShapeError
| ShapeMismatchError
| SchemaMismatchError
| EmptyInputError
| DistributedCommError
| InputCheckError
| OutOfBounds
| GPUSupportError
| JsonTypeError.

#[global] Instance error_eq_dec : EqDecision error.
Proof. solve_decision. Defined.

Inductive result (A : Type) : Type :=
| OK (a : A)
| Err (e : error).
Arguments OK {A} a.
Arguments Err {A} e.

#[global] Instance result_ret : MRet result := fun A a => OK a.
#[global] Instance result_bind : MBind result := fun A B f r =>
  match r with OK a => f a | Err e => Err e end.

(** Read an element; outside the range the read fails. *)
Definition at_ {A} (l : list A) (i : nat) : result A :=
  match l !! i with Some a => OK a | None => Err OutOfBounds end.

(** All the results of a list, or the first failure. *)
Fixpoint collect {A} (l : list (result A)) : result (list A) :=
  match l with
  | [] => OK []
  | r :: rs => a ← r; as_ ← collect rs; OK (a :: as_)
  end.

(** ** State and error

    A method that writes through an out-pointer is a function from the
    pointed-to value to an outcome and the value left behind. *)
Definition ST (S A : Type) : Type := S -> result A * S.

#[global] Instance ST_ret {S} : MRet (ST S) := fun A a s => (OK a, s).
#[global] Instance ST_bind {S} : MBind (ST S) := fun A B f m s =>
  match m s with
  | (OK a, s') => f a s'
  | (Err e, s') => (Err e, s')
  end.

Definition lift {S A} (r : result A) : ST S A := fun s => (r, s).
Definition get {S} : ST S S := fun s => (OK s, s).
Definition put {S} (s : S) : ST S unit := fun _ => (OK tt, s).
Definition modify {S} (f : S -> S) : ST S unit := fun s => (OK tt, f s).

(** [CHECK(b)] tagged with the error it stands for. *)
Definition CHECK {S} (b : bool) (e : error) : ST S unit :=
  if b then mret tt else lift (Err e).

(** Run an action on each element, in list order, stopping at a failure. *)
Fixpoint for_each {S A} (l : list A) (body : A -> ST S unit) : ST S unit :=
  match l with
  | [] => mret tt
  | a :: l' => body a ;; for_each l' body
  end.

(** ** Data model *)

(** [GradientPair{g, h}]. *)
Record GradientPair : Set := MkGradientPair { GetGrad : float; GetHess : float }.

(** [linalg::Matrix<T>]: the elements in row-major order and the shape. *)
Record Matrix (A : Type) : Type := MkMatrix { Data : list A; Shape : Z * Z }.
Arguments MkMatrix {A} Data Shape.
Arguments Data {A} m.
Arguments Shape {A} m.

(** [Size()] of a tensor: the product of its extents. *)
Definition Size {A} (m : Matrix A) : Z := to_size_t ((Shape m).1 * (Shape m).2).

(** [Reshape(rows, cols)]: the storage is resized to [rows * cols] elements
    (kept where they were, new ones value-initialised) and the shape set. *)
Definition Reshape {A} (dflt : A) (rows cols : Z) (m : Matrix A) : Matrix A :=
  let n := Z.to_nat (to_size_t (rows * cols)) in
  MkMatrix (take n (Data m ++ replicate n dflt)) (rows, cols).

(** The part of [MetaInfo] the objective reads. [ShouldHaveLabels] is the
    answer of the method of that name, declared in [xgboost/data.h] and not
    among the sources: whether this worker is expected to hold labels. *)
Record MetaInfo : Type := MkMetaInfo {
  num_row_ : Z;
  labels : Matrix float;
  weights_ : list float;
  ShouldHaveLabels : bool
}.

(** [common::QuantileLossParam]. *)
Record QuantileLossParam : Type := MkParam { quantile_alpha : list float }.

(** The fields of [QuantileRegression]. *)
Record QuantileRegression : Type := MkObj {
  param_ : QuantileLossParam;
  alpha_ : list float
}.

(** The state [Configure] leaves: [alpha_] is a copy of the validated,
    non-empty level list (line 195). *)
Definition Configured (self : QuantileRegression) : Prop :=
  alpha_ self = quantile_alpha (param_ self) ∧ alpha_ self ≠ [].

(** The cells of a [rows] by [cols] grid, row by row. *)
Definition grid (rows cols : nat) : list (nat * nat) :=
  i ← seq 0 rows; (λ j, (i, j)) <$> seq 0 cols.

Inductive DeviceOrd : Set := CPU | CUDA.

(** The execution context. [schedule] is the order in which the backend
    (host threads or accelerator kernel) happens to visit the cells of an
    element-wise kernel: some rearrangement of the grid, each cell once. *)
Record Context : Type := MkContext {
  Device : DeviceOrd;
  schedule : list (nat * nat) -> list (nat * nat);
  schedule_perm : ∀ l, schedule l ≡ₚ l
}.

Definition IsCPU (ctx : Context) : bool :=
  match Device ctx with CPU => true | CUDA => false end.
Definition IsCUDA (ctx : Context) : bool := negb (IsCPU ctx).

(** What the headers included by the file declare and the file uses
    without defining it: the width of [bst_target_t], the constant [kRtEps],
    whether the build has CUDA, and the input check of [init_estimation.h]. *)
Record Headers : Type := MkHeaders {
  bst_target_bits : Z;
  kRtEps : float;
  XGBOOST_USE_CUDA : bool;
  CheckInitInputs : MetaInfo -> result unit
}.

(** Modelled from the spec: [common::OptionalWeights] ([weight[i]]), which is
    not among the sources: "one optional weight (default 1.0 if absent)".
    A weight vector that is present is a span, read with a range check. *)
Definition OptionalWeights (weights : list float) (i : nat) : result float :=
  match weights with
  | [] => OK Float.one
  | _ => at_ weights i
  end.

(** Modelled from the spec: [linalg::ElementWiseKernel], which is not among
    the sources: "one gradient/hessian pair per (sample, quantile) cell",
    "embarrassingly parallel over the (sample, quantile) grid -- no ordering
    dependency between cells". The function is called once on each index of
    the tensor, in the order the context's backend chooses. *)
Definition ElementWiseKernel {A} (ctx : Context)
    (fn : nat -> nat -> ST (Matrix A) unit) : ST (Matrix A) unit :=
  t ← get;
  for_each (schedule ctx (grid (Z.to_nat (Shape t).1) (Z.to_nat (Shape t).2)))
           (λ ij, fn ij.1 ij.2).

(** [gpair(i, j) = v] on a view of a tensor with [cols] columns. *)
Definition store {A} (i j : nat) (v : A) : ST (Matrix A) unit :=
  t ← get;
  let k := (i * Z.to_nat (Shape t).2 + j)%nat in
  if decide (k < length (Data t))%nat
  then put (MkMatrix (<[k := v]> (Data t)) (Shape t))
  else lift (Err OutOfBounds).

(** ** The quantile estimators of [common/stats.h] *)

(** [std::stable_sort] by a key compared with [<] on floats: an element
    moves behind the elements that followed it only when they are smaller. *)
Fixpoint insert_by {A} (key : A -> float) (x : A) (l : list A) : list A :=
  match l with
  | [] => [x]
  | y :: l' =>
      if Float.lt (key y) (key x) then y :: insert_by key x l' else x :: l
  end.
Definition stable_sort {A} (key : A -> float) (l : list A) : list A :=
  foldr (insert_by key) [] l.

(** Modelled from the spec: [common::Quantile], which is not among the
    sources: "the unweighted case uses ordinary order-statistic
    interpolation", "Fails with EmptyInputError if the shard has zero
    samples". The [n] sorted values sit at the positions [1/(n+1)], ...,
    [n/(n+1)]; a level between two positions is interpolated linearly, a
    level outside them takes the extreme value. *)
Definition Quantile (alpha : double) (values : list float) : result float :=
  match values with
  | [] => Err EmptyInputError
  | _ :: _ =>
      let n := Double.of_Z (Z.of_nat (length values)) in
      let sorted := stable_sort id values in
      let n1 := Double.add n (Double.of_Z 1) in
      if Double.le alpha (Double.div (Double.of_Z 1) n1) then at_ sorted 0
      else if Double.ge alpha (Double.div n n1)
      then at_ sorted (length values - 1)
      else
        let x := Double.mul alpha n1 in
        let k := Double.floor x - 1 in
        let d := Double.sub (Double.sub x (Double.of_Z 1)) (Double.of_Z k) in
        v0 ← at_ sorted (Z.to_nat k);
        v1 ← at_ sorted (Z.to_nat k + 1);
        OK (Double.to_float
              (Double.add (Double.of_float v0)
                 (Double.mul d (Double.of_float (Float.sub v1 v0)))))
  end.

(** Running sums [w0, w0 + w1, ...] in [float]. *)
Fixpoint partial_sums (acc : float) (ws : list float) : list float :=
  match ws with
  | [] => []
  | w :: ws' => let acc' := Float.add acc w in acc' :: partial_sums acc' ws'
  end.

(** [std::lower_bound]: the first position whose element is not below
    [thresh], the length if there is none. *)
Fixpoint lower_bound (cdf : list float) (thresh : float) : nat :=
  match cdf with
  | [] => 0%nat
  | c :: cdf' => if Float.lt c thresh then S (lower_bound cdf' thresh) else 0%nat
  end.

(** Modelled from the spec: [common::WeightedQuantile], which is not among
    the sources: "the weighted case uses weighted order-statistic
    interpolation where each label's contribution to cumulative probability
    mass is proportional to its weight", "Fails with EmptyInputError if the
    shard has zero samples". The value returned is the first sorted label at
    which the cumulative weight reaches the fraction [alpha] of the total. *)
Definition WeightedQuantile (alpha : double) (values weights : list float)
  : result float :=
  match values with
  | [] => Err EmptyInputError
  | _ :: _ =>
      ws ← collect ((λ i, at_ weights i) <$> seq 0 (length values));
      let sorted := stable_sort fst (zip values ws) in
      let weight_cdf :=
        match sorted.*2 with
        | [] => []
        | w0 :: rest => w0 :: partial_sums w0 rest
        end in
      total ← at_ weight_cdf (length weight_cdf - 1);
      let thresh := Double.to_float (Double.mul (Double.of_float total) alpha) in
      let idx := Nat.min (lower_bound weight_cdf thresh) (length values - 1) in
      at_ (sorted.*1) idx
  end.

(** Modelled from the spec: [common::SegmentedQuantile] of
    [common/stats.cuh], which is not among the sources: "a single combined
    call across all QuantileLevels at once (segmented variant, used on the
    accelerator path for efficiency)", "Returns one scalar per level", with
    the contract of the one-at-a-time estimator on each segment. *)
Definition SegmentedQuantile (alphas : list float)
    (segments : list (list float)) : result (list float) :=
  collect (zip_with (λ a seg, Quantile (Double.of_float a) seg) alphas segments).

(** Modelled from the spec: [common::SegmentedWeightedQuantile], likewise. *)
Definition SegmentedWeightedQuantile (alphas : list float)
    (segments : list (list float * list float)) : result (list float) :=
  collect (zip_with (λ a seg, WeightedQuantile (Double.of_float a) seg.1 seg.2)
             alphas segments).

(** Modelled from the spec: [common::Mean], which is not among the sources:
    "the arithmetic mean across all QuantileLevel estimates". The terms
    [v_i / n] are added up in [float]. *)
Definition Mean (v : list float) : float :=
  let n := Float.of_Z (Z.of_nat (length v)) in
  foldl (λ acc x, Float.add acc (Float.div x n)) Float.zero v.

(** ** The collective *)

(** The other workers as seen from one of them: what the workers of lower
    and of higher rank contribute to the reduction, and whether the
    primitive reports a communication failure. *)
Record Communicator : Type := MkCommunicator {
  lower_ranks : list (double * double);
  higher_ranks : list (double * double);
  link_down : bool
}.

Definition add2 (x y : double * double) : double * double :=
  (Double.add x.1 y.1, Double.add x.2 y.2).

(** Modelled from the spec: [collective::GlobalSum] followed by
    [collective::SafeColl], which are not among the sources: "a blocking
    global-sum reduction over this 2-vector across all workers", "returning
    the element-wise sum of a vector across all cooperating workers"; a
    failure of the primitive is fatal. The terms are added in rank order. *)
Definition GlobalSum (comm : Communicator) (dat : double * double)
  : result (double * double) :=
  if link_down comm then Err DistributedCommError
  else match lower_ranks comm ++ dat :: higher_ranks comm with
       | [] => OK dat
       | c :: cs => OK (foldl add2 c cs)
       end.

(** A single process: nobody else contributes. *)
Definition single_process : Communicator := MkCommunicator [] [] false.

(** ** JSON documents *)

#[warnings="-register-all"]
Inductive Json : Type :=
| JsonNull
| JsonString (s : string)
| JsonNumber (f : float)
| JsonArray (l : list Json)
| JsonObject (m : gmap string Json).

(** [j[key]] on a constant document: the member of an object. *)
Definition member (j : Json) (key : string) : result Json :=
  match j with
  | JsonObject m =>
      match m !! key with Some v => OK v | None => Err OutOfBounds end
  | _ => Err JsonTypeError
  end.

(** [j[key] = v] on a mutable document: insert or overwrite. *)
Definition set_member (key : string) (v : Json) : ST Json unit :=
  j ← get;
  match j with
  | JsonObject m => put (JsonObject (<[key := v]> m))
  | _ => lift (Err JsonTypeError)
  end.

(** [get<String const>(j)]. *)
Definition get_String (j : Json) : result string :=
  match j with JsonString s => OK s | _ => Err JsonTypeError end.

Definition get_Number (j : Json) : result float :=
  match j with JsonNumber f => OK f | _ => Err JsonTypeError end.

(** Modelled from the spec: [ToJson(param_)], which is not among the
    sources; the schema of section 6:
    [{ "quantile_alpha": [<float>, ...] }]. *)
Definition ToJson (p : QuantileLossParam) : Json :=
  JsonObject {[ "quantile_alpha" := JsonArray (JsonNumber <$> quantile_alpha p) ]}.

(** Modelled from the spec: [FromJson(j, &param_)], which is not among the
    sources: the level list is read back from the same schema. *)
Definition FromJson (j : Json) : ST QuantileLossParam unit :=
  a ← lift (member j "quantile_alpha");
  match a with
  | JsonArray l =>
      levels ← lift (collect (get_Number <$> l));
      put (MkParam levels)
  | _ => lift (Err JsonTypeError)
  end.

(** ** The objective *)

Section Objective.
Variable hdr : Headers.

Definition to_bst_target_t (n : Z) : Z := n mod 2 ^ bst_target_bits hdr.

(** [QuantileRegression::Targets], lines 37-50. *)
Definition Targets (self : QuantileRegression) (info : MetaInfo) : result Z :=
  let alpha := quantile_alpha (param_ self) in
  if negb (Z.of_nat (length alpha) =? Z.of_nat (length (alpha_ self)))
  then Err ConfigurationError else
  if ShouldHaveLabels info && negb ((Shape (labels info)).2 =? 1)
  then Err UnsupportedShapeError else
  if bool_decide (alpha = []) then Err ConfigurationError else
  let n_y := Z.max 1 (Shape (labels info)).2 in
  OK (to_bst_target_t (to_size_t (Z.of_nat (length (alpha_ self)) * n_y))).

(** The closed form of section 4.2 of the specification, in the words of
    the specification: [d = prediction - label], [hessian = weight],
    [gradient = (1 - alpha) * weight] if [d >= 0] and [- alpha * weight]
    if [d < 0]. (The specification names no third case; when [d] is not a
    number the second line is used, as in the source.) *)
Definition pinball_gradient (prediction label weight alpha : float)
  : GradientPair :=
  let d := Float.sub prediction label in
  MkGradientPair
    (if Float.ge d Float.zero
     then Float.mul (Float.sub Float.one alpha) weight
     else Float.mul (Float.neg alpha) weight)
    weight.

(** The body of the kernel of [GetGradient], lines 86-98, up to the write:
    the pair computed for cell [(i, j)]. *)
Definition gradient_cell (preds : list float) (info : MetaInfo)
    (alpha : list float) (n_targets : Z) (i j : nat) : result GradientPair :=
  p ← at_ preds (i * Z.to_nat n_targets + j);
  y ← at_ (Data (labels info)) (i * Z.to_nat (Shape (labels info)).2 + 0);
  let d := Float.sub p y in
  h ← OptionalWeights (weights_ info) i;
  if Float.ge d Float.zero then
    a ← at_ alpha j;
    w ← OptionalWeights (weights_ info) i;
    let g := Float.mul (Float.sub Float.one a) w in
    OK (MkGradientPair g h)
  else
    a ← at_ alpha j;
    w ← OptionalWeights (weights_ info) i;
    let g := Float.mul (Float.neg a) w in
    OK (MkGradientPair g h).

(** [QuantileRegression::GetGradient], lines 53-99. The state is
    [*out_gpair]. *)
Definition GetGradient (ctx : Context) (self : QuantileRegression)
    (preds : list float) (info : MetaInfo) (iter : Z)
  : ST (Matrix GradientPair) unit :=
  (if iter =? 0 then lift (CheckInitInputs hdr info) else mret tt) ;;
  CHECK (Z.of_nat (length (quantile_alpha (param_ self)))
         =? Z.of_nat (length (alpha_ self))) ConfigurationError ;;
  n_targets ← lift (Targets self info);
  let n_alphas := Z.of_nat (length (alpha_ self)) in
  CHECK (negb (n_alphas =? 0)) ConfigurationError ;;
  CHECK (n_alphas <=? n_targets) ShapeMismatchError ;;
  CHECK (Z.of_nat (length preds) =? to_size_t (num_row_ info * n_targets))
        ShapeMismatchError ;;
  CHECK ((Shape (labels info)).2 =? 1) UnsupportedShapeError ;;
  modify (Reshape (MkGradientPair Float.zero Float.zero)
                  (num_row_ info) n_targets) ;;
  ElementWiseKernel ctx (λ i j,
    gp ← lift (gradient_cell preds info (alpha_ self) n_targets i j);
    store i j gp).

(** [linalg::Vector<float>::Reshape(n)]: resize to [n] elements. *)
Definition Reshape1 (n : Z) (v : list float) : list float :=
  take (Z.to_nat n) (v ++ replicate (Z.to_nat n) Float.zero).

(** [quantiles(t) = q] on the host view of the base score. *)
Definition store1 (t : nat) (q : float) : ST (list float) unit :=
  v ← get;
  if decide (t < length v)%nat then put (<[t := q]> v)
  else lift (Err OutOfBounds).

(** The sum of the weights accumulated in [double] from [0.0]
    ([std::accumulate] on the host, [dh::Reduce] on the device). *)
Definition sum_weights (ws : list float) : double :=
  foldl (λ acc w, Double.add acc (Double.of_float w)) Double.zero ws.

(** Lines 157-164: the estimate the host loop computes for one level. *)
Definition host_estimate (info : MetaInfo) (alpha : float) : result float :=
  let h_labels := labels info in
  let h_weights := weights_ info in
  if bool_decide (h_weights = []) then
    Quantile (Double.of_float alpha) (Data h_labels)
  else if Z.of_nat (length h_weights) =? Size h_labels then
    WeightedQuantile (Double.of_float alpha) (Data h_labels) h_weights
  else Err ShapeMismatchError.

(** The local weight sum [sw], lines 149-153 (and 128, 140 on the
    accelerator). *)
Definition local_weight_sum (info : MetaInfo) : double :=
  if bool_decide (weights_ info = [])
  then Double.of_Z (num_row_ info)
  else sum_weights (weights_ info).

(** The host branch of [InitEstimation], lines 147-165: fills the per-level
    estimates and returns the local weight sum [sw]. *)
Definition InitEstimation_host (self : QuantileRegression) (info : MetaInfo)
    (n_targets : Z) : ST (list float) double :=
  let sw := local_weight_sum info in
  for_each (seq 0 (Z.to_nat n_targets)) (λ t,
    alpha ← lift (at_ (quantile_alpha (param_ self)) t);
    q ← lift (host_estimate info alpha);
    store1 t q) ;;
  mret sw.

(** The segments handed to the segmented estimators, lines 114-122 and
    132-136: segment [s] is [seg_it s, seg_it (s+1)) with
    [seg_it i = i * Shape(0)], and position [k] holds
    [it k = v(k % Shape(0))]. *)
Definition segment {A} (rows : nat) (it : nat -> result A) (s : nat)
  : result (list A) :=
  collect (it <$> seq (s * rows) ((s + 1) * rows - s * rows)).

(** The accelerator branch of [InitEstimation], lines 111-142. *)
Definition InitEstimation_device (self : QuantileRegression) (info : MetaInfo)
  : ST (list float) double :=
  let d_alpha := alpha_ self in
  let d_labels := labels info in
  let rows := Z.to_nat (Shape d_labels).1 in
  let val_it := λ k, at_ (Data d_labels)
                         (k `mod` rows * Z.to_nat (Shape d_labels).2 + 0) in
  CHECK ((Shape d_labels).2 =? 1) UnsupportedShapeError ;;
  base ← get;
  CHECK (Z.of_nat (length base) =? Z.of_nat (length d_alpha)) ShapeMismatchError ;;
  if bool_decide (weights_ info = []) then
    segs ← lift (collect (segment rows val_it <$> seq 0 (length d_alpha)));
    qs ← lift (SegmentedQuantile d_alpha segs);
    put qs ;;
    mret (Double.of_Z (num_row_ info))
  else
    let d_weights := weights_ info in
    let weight_it := λ k, at_ d_weights (k `mod` rows) in
    segs ← lift (collect (segment rows val_it <$> seq 0 (length d_alpha)));
    wsegs ← lift (collect (segment rows weight_it <$> seq 0 (length d_alpha)));
    qs ← lift (SegmentedWeightedQuantile d_alpha (zip segs wsegs));
    put qs ;;
    mret (sum_weights d_weights).

(** Lines 102-174: the local half of [InitEstimation], up to the 2-vector
    [dat] handed to the reduction. *)
Definition InitEstimation_local (ctx : Context) (self : QuantileRegression)
    (info : MetaInfo) : ST (list float) (double * double) :=
  CHECK (negb (bool_decide (alpha_ self = []))) ConfigurationError ;;
  n_targets ← lift (Targets self info);
  modify (Reshape1 n_targets) ;;
  sw ← (if IsCUDA ctx then
          if XGBOOST_USE_CUDA hdr then InitEstimation_device self info
          else lift (Err GPUSupportError)
        else InitEstimation_host self info n_targets);
  base_score ← get;
  let temp := Mean base_score in
  let meanq := Double.mul (Double.of_float temp) sw in
  mret (meanq, sw).

(** Lines 178-181: the base score computed from the reduced 2-vector. *)
Definition combine (dat : double * double) : float :=
  let '(meanq, sw) := dat in
  Double.to_float
    (Double.div meanq (Double.add sw (Double.of_float (kRtEps hdr)))).

(** [QuantileRegression::InitEstimation], lines 101-182. The state is
    [*base_score]. *)
Definition InitEstimation (ctx : Context) (comm : Communicator)
    (self : QuantileRegression) (info : MetaInfo) : ST (list float) unit :=
  dat ← InitEstimation_local ctx self info;
  dat ← lift (GlobalSum comm dat);
  modify (Reshape1 1) ;;
  modify (λ v, replicate (length v) (combine dat)).

(** [QuantileRegression::Name]. *)
Definition Name : string := "reg:quantileerror".

(** [QuantileRegression::SaveConfig], lines 200-204. The state is [*p_out]. *)
Definition SaveConfig (self : QuantileRegression) : ST Json unit :=
  set_member "name" (JsonString Name) ;;
  set_member "quantile_loss_param" (ToJson (param_ self)).

(** Run an action on the field [param_]. *)
Definition on_param_ {A} (m : ST QuantileLossParam A)
  : ST QuantileRegression A :=
  λ self, let '(r, p) := m (param_ self) in (r, MkObj p (alpha_ self)).

(** [QuantileRegression::LoadConfig], lines 205-209. The state is the
    object. *)
Definition LoadConfig (in_ : Json) : ST QuantileRegression unit :=
  name ← lift (j ← member in_ "name"; get_String j);
  CHECK (bool_decide (name = Name)) SchemaMismatchError ;;
  p ← lift (member in_ "quantile_loss_param");
  on_param_ (FromJson p) ;;
  modify (λ self, MkObj (param_ self) (quantile_alpha (param_ self))).

End Objective.

(** A freshly constructed objective. *)
Definition fresh : QuantileRegression := MkObj (MkParam []) [].

(** ** Concrete values to run the model on *)

(** An input check that asks for one label row per data row and, when
    weights are given, one weight per data row. *)
Definition reference_CheckInitInputs (info : MetaInfo) : result unit :=
  if negb ((Shape (labels info)).1 =? num_row_ info) then Err InputCheckError
  else if bool_decide (weights_ info = []) then OK tt
  else if Z.of_nat (length (weights_ info)) =? num_row_ info then OK tt
  else Err InputCheckError.

(** The float nearest to [10^-6]. *)
Definition micro : float :=
  Eval vm_compute in Float.div Float.one (Float.of_Z 1000000).

(** Target counts of 32 bits, [kRtEps = 1e-6f], a build without CUDA. *)
Definition reference_headers : Headers :=
  MkHeaders 32 micro false reference_CheckInitInputs.

(** The same with CUDA. *)
Definition cuda_headers : Headers :=
  MkHeaders 32 (kRtEps reference_headers) true reference_CheckInitInputs.

(** A host context that visits the cells row by row, one that visits them
    in the opposite order, and an accelerator. *)
Definition host_ctx : Context := MkContext CPU id (λ l, Permutation_refl l).
Definition reversed_ctx : Context := MkContext CPU reverse reverse_Permutation.
Definition device_ctx : Context := MkContext CUDA reverse reverse_Permutation.

(** Small floats: [n / d], correctly rounded. *)
Definition f32 (n d : Z) : float := Float.div (Float.of_Z n) (Float.of_Z d).

(** ** Auxiliary definitions used to state the properties *)

(** Position of cell [(i, j)] in the row-major storage. *)
Definition offset (cols : nat) (ij : nat * nat) : nat := (ij.1 * cols + ij.2)%nat.

(** A kernel function that computes the value of a cell and stores it, as
    [ElementWiseKernel] runs it on one index. *)
Definition kernel_body {A} (cell : nat → nat → result A) (ij : nat * nat)
  : ST (Matrix A) unit :=
  gp ← lift (cell ij.1 ij.2); store ij.1 ij.2 gp.

(** One round of the host loop of [InitEstimation] for estimator [est]. *)
Definition host_body (levels : list float) (est : float → result float)
    (t : nat) : ST (list float) unit :=
  alpha ← lift (at_ levels t); q ← lift (est alpha); store1 t q.

(** The estimate the segmented call yields for one level: the one-at-a-time
    estimator on the label column (and the weights of its rows). *)
Definition device_estimate (info : MetaInfo) (a : float) : result float :=
  let rows := Z.to_nat (Shape (labels info)).1 in
  if bool_decide (weights_ info = [])
  then Quantile (Double.of_float a) (take rows (Data (labels info)))
  else WeightedQuantile (Double.of_float a) (take rows (Data (labels info)))
                        (take rows (weights_ info)).

(** ** Sample data *)

(** Levels 0.1, 0.5, 0.9, and the level 0.5 alone. *)
Definition obj3 : QuantileRegression :=
  let a := [f32 1 10; f32 1 2; f32 9 10] in MkObj (MkParam a) a.
Definition obj_median : QuantileRegression :=
  MkObj (MkParam [f32 1 2]) [f32 1 2].

(** Five samples with labels 1, ..., 5, without and with (unit) weights. *)
Definition lab5 : Matrix float := MkMatrix (Float.of_Z <$> [1; 2; 3; 4; 5]) (5, 1).
Definition info5 : MetaInfo := MkMetaInfo 5 lab5 [] true.
Definition info5w : MetaInfo := MkMetaInfo 5 lab5 (replicate 5 Float.one) true.

(** Predictions for the five samples and three levels, row by row. *)
Definition preds5 : list float :=
  Float.of_Z <$> [0; 1; 2;  2; 2; 2;  5; 3; 1;  4; 4; 4;  9; 9; 0].

(** An output buffer never used before, and a used one. *)
Definition no_gpair : Matrix GradientPair := MkMatrix [] (0, 0).
Definition stale_gpair : Matrix GradientPair :=
  MkMatrix (replicate 20 (MkGradientPair Float.one Float.one)) (10, 2).

(** Shards: one sample of label 1; one sample of label 0; three samples of
    label 10; their union; no sample at all; no label matrix; a label
    matrix of two columns. *)
Definition shard_one : MetaInfo :=
  MkMetaInfo 1 (MkMatrix [Float.one] (1, 1)) [] true.
Definition shard_zero : MetaInfo :=
  MkMetaInfo 1 (MkMatrix [Float.zero] (1, 1)) [] true.
Definition shard_tens : MetaInfo :=
  MkMetaInfo 3 (MkMatrix (replicate 3 (Float.of_Z 10)) (3, 1)) [] true.
Definition shard_union : MetaInfo :=
  MkMetaInfo 4 (MkMatrix (Float.zero :: replicate 3 (Float.of_Z 10)) (4, 1)) [] true.
Definition shard_empty : MetaInfo := MkMetaInfo 0 (MkMatrix [] (0, 1)) [] true.
Definition unlabelled : MetaInfo := MkMetaInfo 0 (MkMatrix [] (0, 0)) [] true.
Definition two_targets : MetaInfo :=
  MkMetaInfo 1 (MkMatrix [Float.one; Float.one] (1, 2)) [] true.

Definition shard_empty_weighted : MetaInfo :=
  MkMetaInfo 0 (MkMatrix [] (0, 1)) [Float.one] true.
Definition shard_empty_unexpected : MetaInfo :=
  MkMetaInfo 0 (MkMatrix [] (0, 0)) [] false.

(** ** The remaining methods of the class *)

(** The arguments of [Configure]: pairs of a key and a value. *)
Definition Args : Type := list (string * string).

(** [QuantileRegression::Configure], lines 192-196. The state is the
    object. [UpdateAllowUnknown] and [Validate] are methods of
    [common::QuantileLossParam], declared in [common/quantile_loss_utils.h]
    and not among the sources: the first rewrites the parameter from the
    arguments, the second checks it; both are taken as they come. *)
Definition Configure
    (UpdateAllowUnknown : Args → ST QuantileLossParam unit)
    (Validate : QuantileLossParam → result unit)
    (args : Args) : ST QuantileRegression unit :=
  on_param_ (UpdateAllowUnknown args) ;;
  (self ← get; lift (Validate (param_ self))) ;;
  modify (λ self, MkObj (param_ self) (quantile_alpha (param_ self))).

(** [QuantileRegression::DefaultEvalMetric], line 211. *)
Definition DefaultEvalMetric : string := "quantile".

(** [QuantileRegression::DefaultMetricConfig], lines 212-218.
    [GetInitialised] is the answer of the method of that name of the
    parameter, which is not among the sources. *)
Definition DefaultMetricConfig (GetInitialised : bool)
    (self : QuantileRegression) : result Json :=
  if GetInitialised then
    match (set_member "name" (JsonString DefaultEvalMetric) ;;
           set_member "quantile_loss_param" (ToJson (param_ self)))
            (JsonObject ∅) with
    | (OK _, config) => OK config
    | (Err e, _) => Err e
    end
  else Err ConfigurationError.

(** A parameter update that installs a given level list, and a validation
    that asks for a non-empty list: stand-ins to run [Configure] on. *)
Definition install_levels (levels : list float) (args : Args)
  : ST QuantileLossParam unit :=
  put (MkParam levels).
Definition validate_nonempty (p : QuantileLossParam) : result unit :=
  if bool_decide (quantile_alpha p = []) then Err ConfigurationError else OK tt.

(** An objective whose parameter was updated but not copied, predictions
    that are not numbers, weights of the wrong length, a communicator whose
    link is down. *)
Definition half_configured : QuantileRegression := MkObj (MkParam [f32 1 2]) [].
Definition preds_nan : list float := replicate 15 S754_nan.
Definition info5_two_weights : MetaInfo :=
  MkMetaInfo 5 lab5 (replicate 2 Float.one) true.
Definition broken_link : Communicator := MkCommunicator [] [] true.

(** The headers with another input check. *)
Definition with_check (hdr : Headers) (check : MetaInfo → result unit)
  : Headers :=
  MkHeaders (bst_target_bits hdr) (kRtEps hdr) (XGBOOST_USE_CUDA hdr) check.

(** Two outcomes agree: the same result, and the same state left behind
    when the result is not a failure. *)
Definition agree {S A} (r1 r2 : result A * S) : Prop :=
  r1.1 = r2.1 ∧ (∀ a, r1.1 = OK a → r1.2 = r2.2).

(** Five samples whose weights are all zero. *)
Definition info5_zero_weights : MetaInfo :=
  MkMetaInfo 5 lab5 (replicate 5 Float.zero) true.

(** * Properties *)

(** ** The monads *)

Lemma ST_bind_OK {S A B} (m : ST S A) (f : A -> ST S B) s b s' :
  (m ≫= f) s = (OK b, s') ↔ ∃ a s1, m s = (OK a, s1) ∧ f a s1 = (OK b, s').
Proof.
  unfold mbind, ST_bind. destruct (m s) as [[a|e] s1]; split.
  - eauto.
  - intros (? & ? & [= -> ->] & ?); done.
  - done.
  - intros (? & ? & [= ] & ?).
Qed.

Lemma ST_bind_Err {S A B} (m : ST S A) (f : A -> ST S B) s e s' :
  m s = (Err e, s') → (m ≫= f) s = (Err e, s').
Proof. unfold mbind, ST_bind. by intros ->. Qed.

Lemma ST_bind_step {S A B} (m : ST S A) (f : A -> ST S B) s a s1 :
  m s = (OK a, s1) → (m ≫= f) s = f a s1.
Proof. unfold mbind, ST_bind. by intros ->. Qed.

Lemma CHECK_OK {S} (b : bool) e (s s' : S) u :
  CHECK b e s = (OK u, s') ↔ b = true ∧ s' = s.
Proof.
  unfold CHECK, lift, mret, ST_ret. destruct b, u; split.
  - by intros [= ->].
  - by intros [_ ->].
  - done.
  - by intros [[=] _].
Qed.

Lemma lift_OK {S A} (r : result A) (s s' : S) a :
  lift r s = (OK a, s') ↔ r = OK a ∧ s' = s.
Proof. unfold lift. split; [by intros [= -> ->] | by intros [-> ->]]. Qed.

Lemma at_OK {A} (l : list A) i a : at_ l i = OK a ↔ l !! i = Some a.
Proof. unfold at_. destruct (l !! i); split; congruence. Qed.

(** ** Element-wise kernels *)

Section Kernel.
Context {A : Type} (cell : nat → nat → result A).

Lemma kernel_body_OK ij t t' :
  kernel_body cell ij t = (OK tt, t') ↔
  ∃ gp, cell ij.1 ij.2 = OK gp
        ∧ (offset (Z.to_nat (Shape t).2) ij < length (Data t))%nat
        ∧ t' = MkMatrix (<[offset (Z.to_nat (Shape t).2) ij := gp]> (Data t))
                        (Shape t).
Proof.
  unfold kernel_body, store, offset. rewrite ST_bind_OK. split.
  - intros (gp & s1 & [Hc ->]%lift_OK & H). exists gp. split; [done|].
    unfold mbind, ST_bind, get, put, lift in H.
    destruct (decide _) as [Hlt|Hge]; [|done].
    by injection H as <-.
  - intros (gp & Hc & Hlt & ->). exists gp, t. split; [by apply lift_OK|].
    unfold mbind, ST_bind, get, put. by rewrite decide_True.
Qed.

Lemma for_each_store_OK l t t' :
  for_each l (kernel_body cell) t = (OK tt, t') →
  Shape t' = Shape t ∧ length (Data t') = length (Data t) ∧
  (∀ ij, ij ∈ l → ∃ gp, cell ij.1 ij.2 = OK gp
     ∧ (offset (Z.to_nat (Shape t).2) ij < length (Data t))%nat) ∧
  (∀ ij gp, ij ∈ l → cell ij.1 ij.2 = OK gp →
     (∀ ij', ij' ∈ l →
        offset (Z.to_nat (Shape t).2) ij' = offset (Z.to_nat (Shape t).2) ij →
        ij' = ij) →
     Data t' !! offset (Z.to_nat (Shape t).2) ij = Some gp) ∧
  (∀ k, (∀ ij, ij ∈ l → offset (Z.to_nat (Shape t).2) ij ≠ k) →
     Data t' !! k = Data t !! k).
Proof.
  revert t. induction l as [|a l IH]; intros t H; simpl in *.
  - injection H as <-. repeat split; try done.
    + intros ij Hin. by apply elem_of_nil in Hin.
    + intros ij gp Hin. by apply elem_of_nil in Hin.
  - apply ST_bind_OK in H as ([] & t1 & Ha & Hl).
    apply kernel_body_OK in Ha as (gpa & Hca & Hlt & ->).
    apply IH in Hl as (Hs & Hlen & Hall & Hin & Hout); simpl in *.
    rewrite length_insert in Hlen, Hall.
    repeat split; try done.
    + intros ij [->|Hij]%elem_of_cons; eauto.
    + intros ij gp [->|Hij]%elem_of_cons Hc Hinj.
      * destruct (decide (a ∈ l)) as [Hal|Hal].
        { apply Hin; [done..|]. intros ij' Hij'. apply Hinj. by right. }
        rewrite Hout.
        -- rewrite list_lookup_insert_eq by done. congruence.
        -- intros ij' Hij' Heq. apply Hal.
           rewrite <- (Hinj ij'); [done|by right|done].
      * apply Hin; [done..|]. intros ij' Hij'. apply Hinj. by right.
    + intros k Hk. rewrite Hout.
      * apply list_lookup_insert_ne. apply Hk. by left.
      * intros ij Hij. apply Hk. by right.
Qed.

Lemma for_each_store_succeeds l t :
  (∀ ij, ij ∈ l → ∃ gp, cell ij.1 ij.2 = OK gp
      ∧ (offset (Z.to_nat (Shape t).2) ij < length (Data t))%nat) →
  ∃ t', for_each l (kernel_body cell) t = (OK tt, t').
Proof.
  revert t. induction l as [|a l IH]; intros t H; simpl.
  - by exists t.
  - destruct (H a) as (gp & Hc & Hlt); [by left|].
    set (t1 := MkMatrix (<[offset (Z.to_nat (Shape t).2) a := gp]> (Data t))
                        (Shape t)).
    destruct (IH t1) as [t' Ht'].
    { intros ij Hij. simpl. rewrite length_insert. apply H. by right. }
    exists t'. rewrite (ST_bind_step _ _ t tt t1); [done|].
    apply kernel_body_OK. by exists gp.
Qed.

End Kernel.

Lemma elem_of_grid r c i j : (i, j) ∈ grid r c ↔ (i < r)%nat ∧ (j < c)%nat.
Proof.
  unfold grid. rewrite list_elem_of_bind. split.
  - intros (i' & Hj & Hi). apply list_elem_of_fmap in Hj as (j' & [= -> ->] & Hj).
    apply elem_of_seq in Hi, Hj. lia.
  - intros [Hi Hj]. exists i. split.
    + apply list_elem_of_fmap. exists j. split; [done|]. apply elem_of_seq. lia.
    + apply elem_of_seq. lia.
Qed.

Lemma offset_inj c i j i' j' :
  (j < c)%nat → (j' < c)%nat → offset c (i, j) = offset c (i', j') →
  (i, j) = (i', j').
Proof.
  unfold offset. simpl. intros Hj Hj' H.
  assert (i = i') as -> by nia. f_equal. lia.
Qed.

Lemma mod_le_self a m : 0 ≤ a → 0 ≤ m → a mod m ≤ a.
Proof.
  intros Ha Hm. destruct (decide (m = 0)) as [->|Hne].
  - by rewrite Z.mod_0_r.
  - apply Z.mod_le; lia.
Qed.

Lemma to_bst_target_t_le hdr a : 0 ≤ a → to_bst_target_t hdr (to_size_t a) ≤ a.
Proof.
  intros Ha. unfold to_bst_target_t, to_size_t.
  assert (0 ≤ a mod 2 ^ 64) by (apply Z.mod_pos_bound; lia).
  assert (0 ≤ 2 ^ bst_target_bits hdr) by (apply Z.pow_nonneg; lia).
  etrans; [by apply mod_le_self|apply mod_le_self; lia].
Qed.

(** ** [Targets] *)

Lemma Targets_OK hdr self info n :
  Targets hdr self info = OK n ↔
  length (quantile_alpha (param_ self)) = length (alpha_ self)
  ∧ (ShouldHaveLabels info = true → (Shape (labels info)).2 = 1)
  ∧ quantile_alpha (param_ self) ≠ []
  ∧ n = to_bst_target_t hdr
          (to_size_t (Z.of_nat (length (alpha_ self))
                      * Z.max 1 (Shape (labels info)).2)).
Proof.
  unfold Targets.
  destruct (Z.eqb_spec (Z.of_nat (length (quantile_alpha (param_ self))))
                       (Z.of_nat (length (alpha_ self)))) as [Hl|Hl]; simpl.
  2: { split; [done|]. intros (? & _). lia. }
  destruct (ShouldHaveLabels info) eqn:Hs; simpl.
  - destruct (Z.eqb_spec (Shape (labels info)).2 1) as [Hc|Hc]; simpl.
    2: { split; [done|]. intros (_ & ? & _). tauto. }
    case_bool_decide as He.
    { split; [done|]. tauto. }
    split.
    + intros [= <-]. repeat split; try done. lia.
    + intros (_ & _ & _ & ->). done.
  - case_bool_decide as He.
    { split; [done|]. tauto. }
    split.
    + intros [= <-]. repeat split; try done. lia.
    + intros (_ & _ & _ & ->). done.
Qed.

(** ** [GetGradient] *)

Lemma length_Reshape {A} (d : A) rows cols m :
  length (Data (Reshape d rows cols m)) = Z.to_nat (to_size_t (rows * cols)).
Proof.
  unfold Reshape. simpl. rewrite length_take, length_app, length_replicate. lia.
Qed.

Lemma elem_of_schedule ctx r c i j :
  (i, j) ∈ schedule ctx (grid r c) ↔ (i < r)%nat ∧ (j < c)%nat.
Proof. rewrite (schedule_perm ctx). apply elem_of_grid. Qed.

Lemma Targets_single hdr self info nt :
  Targets hdr self info = OK nt → (Shape (labels info)).2 = 1 →
  Z.of_nat (length (alpha_ self)) ≤ nt →
  nt = Z.of_nat (length (alpha_ self)).
Proof.
  intros (_ & _ & _ & ->)%Targets_OK -> Hle.
  replace (Z.max 1 1) with 1 in * by lia. rewrite Z.mul_1_r in *.
  pose proof (to_bst_target_t_le hdr (Z.of_nat (length (alpha_ self)))).
  lia.
Qed.

Lemma GetGradient_OK hdr ctx self preds info iter out out' :
  GetGradient hdr ctx self preds info iter out = (OK tt, out') →
  let n := length (alpha_ self) in
  (iter = 0 → CheckInitInputs hdr info = OK tt)
  ∧ length (quantile_alpha (param_ self)) = n ∧ n ≠ 0%nat
  ∧ Targets hdr self info = OK (Z.of_nat n)
  ∧ Z.of_nat (length preds) = to_size_t (num_row_ info * Z.of_nat n)
  ∧ (Shape (labels info)).2 = 1
  ∧ Shape out' = (num_row_ info, Z.of_nat n)
  ∧ length (Data out') = length preds
  ∧ ∀ i j, (i < Z.to_nat (num_row_ info))%nat → (j < n)%nat →
      ∃ gp, gradient_cell preds info (alpha_ self) (Z.of_nat n) i j = OK gp
            ∧ Data out' !! (i * n + j)%nat = Some gp.
Proof.
  intros H n. unfold GetGradient in H.
  apply ST_bind_OK in H as ([] & s1 & H0 & H).
  apply ST_bind_OK in H as ([] & s2 & [H1 ->]%CHECK_OK & H).
  apply ST_bind_OK in H as (nt & s3 & [H2 ->]%lift_OK & H).
  apply ST_bind_OK in H as ([] & s4 & [H3 ->]%CHECK_OK & H).
  apply ST_bind_OK in H as ([] & s5 & [H4 ->]%CHECK_OK & H).
  apply ST_bind_OK in H as ([] & s6 & [H5 ->]%CHECK_OK & H).
  apply ST_bind_OK in H as ([] & s7 & [H6 ->]%CHECK_OK & H).
  apply ST_bind_OK in H as ([] & s8 & H7 & H).
  apply Z.eqb_eq in H1, H5, H6. apply Z.leb_le in H4.
  apply negb_true_iff, Z.eqb_neq in H3.
  assert (nt = Z.of_nat n) as -> by by apply (Targets_single hdr self info).
  assert (s1 = out ∧ (iter = 0 → CheckInitInputs hdr info = OK tt)) as [-> Hc].
  { destruct (Z.eqb_spec iter 0) as [->|Hi].
    - apply lift_OK in H0 as [? ->]. done.
    - injection H0 as <-. done. }
  injection H7 as <-.
  unfold ElementWiseKernel in H.
  apply ST_bind_OK in H as (t & s9 & [= <- <-] & H).
  apply (for_each_store_OK
           (gradient_cell preds info (alpha_ self) (Z.of_nat n))) in H.
  destruct H as (Hs & Hlen & Hall & Hin & _).
  rewrite length_Reshape in Hlen. simpl in Hs, Hall, Hin.
  rewrite Nat2Z.id in *.
  repeat split; try done; try lia.
  intros i j Hi Hj.
  assert ((i, j) ∈ schedule ctx (grid (Z.to_nat (num_row_ info)) n)) as Hij
    by by apply elem_of_schedule.
  destruct (Hall _ Hij) as (gp & Hgp & _). exists gp. split; [done|].
  apply (Hin (i, j) gp Hij Hgp).
  intros [i' j'] [_ Hj']%elem_of_schedule. by apply offset_inj.
Qed.

Lemma Float_lt_zero_not_ge d : Float.lt d Float.zero = true → Float.ge d Float.zero = false.
Proof.
  unfold Float.lt, Float.ge, Float.zero, SFltb, SFleb.
  destruct d as [s|s| |s m e]; try destruct s; simpl; intros; congruence.
Qed.

Lemma Float_is_zero_ge d : Float.is_zero d = true → Float.ge d Float.zero = true.
Proof. by destruct d. Qed.

Lemma OptionalWeights_OK ws i w :
  OptionalWeights ws i = OK w ↔
  (ws = [] ∧ w = Float.one) ∨ (ws ≠ [] ∧ ws !! i = Some w).
Proof.
  unfold OptionalWeights. destruct ws as [|w0 ws].
  - split; [intros [= <-]; by left|]. intros [[_ ->]|[? _]]; done.
  - rewrite at_OK. split; [by right|]. by intros [[? _]|[_ ?]].
Qed.

Lemma gradient_cell_OK preds info alpha nt i j gp :
  gradient_cell preds info alpha nt i j = OK gp ↔
  ∃ p y w a,
    preds !! (i * Z.to_nat nt + j)%nat = Some p
    ∧ Data (labels info) !! (i * Z.to_nat (Shape (labels info)).2 + 0)%nat = Some y
    ∧ OptionalWeights (weights_ info) i = OK w
    ∧ alpha !! j = Some a
    ∧ gp = pinball_gradient p y w a.
Proof.
  unfold gradient_cell, pinball_gradient, at_.
  destruct (preds !! _) as [p|]; simpl.
  2: { split; [done|]. by intros (? & ? & ? & ? & ? & _). }
  destruct (Data (labels info) !! _) as [y|]; simpl.
  2: { split; [done|]. by intros (? & ? & ? & ? & _ & ? & _). }
  destruct (OptionalWeights (weights_ info) i) as [w|e]; simpl.
  2: { split; [done|]. by intros (? & ? & ? & ? & _ & _ & ? & _). }
  destruct (alpha !! j) as [a|]; simpl.
  2: { split; [by destruct (Float.ge _ _)|].
       by intros (? & ? & ? & ? & _ & _ & _ & ? & _). }
  split.
  - intros H. exists p, y, w, a. repeat split; try done.
    destruct (Float.ge _ _); by injection H as <-.
  - intros (? & ? & ? & ? & [= <-] & [= <-] & [= <-] & [= <-] & ->).
    by destruct (Float.ge _ _).
Qed.

Lemma Float_sub_diag s m e :
  Float.is_zero (Float.sub (S754_finite s m e) (S754_finite s m e)) = true.
Proof.
  unfold Float.sub, SFsub. rewrite Z.min_id.
  generalize (cond_Zopp s (Z.pos (shl_align m e e).1)). intros z.
  replace (IntDef.Z.sub z z) with 0; [done|].
  change (0 = z - z). lia.
Qed.

(** C1. For every sample [i] (label [y], weight [w], which is [1] when no
    weights are supplied) and every quantile index [j] (level [a]), a call of
    [GetGradient] that returns leaves at cell [(i, j)] the pair of the
    closed-form pinball formula: the hessian is [w]; the gradient is
    [(1 - a) * w] when [prediction(i,j) - y >= 0] and [- a * w] when
    [prediction(i,j) - y < 0]; at the tie [d = 0] (in particular when the
    prediction equals the label) the over-prediction branch [(1 - a) * w] is
    taken. *)
Theorem GetGradient_pinball hdr ctx self preds info iter out out' i j :
  GetGradient hdr ctx self preds info iter out = (OK tt, out') →
  (i < Z.to_nat (num_row_ info))%nat → (j < length (alpha_ self))%nat →
  ∃ p y w a gp,
    preds !! (i * length (alpha_ self) + j)%nat = Some p
    ∧ Data (labels info) !! i = Some y
    ∧ (weights_ info = [] ∧ w = Float.one
       ∨ weights_ info ≠ [] ∧ weights_ info !! i = Some w)
    ∧ alpha_ self !! j = Some a
    ∧ Data out' !! (i * length (alpha_ self) + j)%nat = Some gp
    ∧ gp = pinball_gradient p y w a
    ∧ GetHess gp = w
    ∧ (Float.ge (Float.sub p y) Float.zero = true →
       GetGrad gp = Float.mul (Float.sub Float.one a) w)
    ∧ (Float.lt (Float.sub p y) Float.zero = true →
       GetGrad gp = Float.mul (Float.neg a) w)
    ∧ (Float.is_zero (Float.sub p y) = true →
       GetGrad gp = Float.mul (Float.sub Float.one a) w)
    ∧ (∀ s m e, p = S754_finite s m e → y = p →
       GetGrad gp = Float.mul (Float.sub Float.one a) w).
Proof.
  intros H Hi Hj.
  apply GetGradient_OK in H as (_ & _ & _ & _ & _ & Hcols & _ & _ & Hcell).
  destruct (Hcell i j Hi Hj) as (gp & Hgp & Hout).
  apply gradient_cell_OK in Hgp as (p & y & w & a & Hp & Hy & Hw & Ha & ->).
  rewrite Hcols in Hy. rewrite Nat2Z.id in Hp.
  replace (i * Z.to_nat 1 + 0)%nat with i in Hy by lia.
  apply OptionalWeights_OK in Hw.
  assert (Float.ge (Float.sub p y) Float.zero = true →
          GetGrad (pinball_gradient p y w a)
          = Float.mul (Float.sub Float.one a) w) as Hge.
  { unfold pinball_gradient. simpl. by intros ->. }
  exists p, y, w, a, (pinball_gradient p y w a).
  repeat split; try done.
  - intros Hlt%Float_lt_zero_not_ge. unfold pinball_gradient. simpl.
    by rewrite Hlt.
  - intros Hz%Float_is_zero_ge. by apply Hge.
  - intros s m e -> ->. apply Hge, Float_is_zero_ge, Float_sub_diag.
Qed.

Lemma CHECK_true {S} e (s : S) : CHECK true e s = (OK tt, s).
Proof. done. Qed.

Lemma Targets_single_OK hdr self info :
  Configured self → (Shape (labels info)).2 = 1 →
  Z.of_nat (length (alpha_ self)) < 2 ^ bst_target_bits hdr →
  Z.of_nat (length (alpha_ self)) < 2 ^ 64 →
  Targets hdr self info = OK (Z.of_nat (length (alpha_ self))).
Proof.
  intros [Ha Hne] Hc Hb Hs. apply Targets_OK. rewrite <- Ha.
  repeat split; try done. rewrite Hc.
  replace (Z.max 1 1) with 1 by lia. rewrite Z.mul_1_r.
  unfold to_bst_target_t, to_size_t.
  rewrite (Z.mod_small _ (2 ^ 64)) by lia. rewrite Z.mod_small by lia. done.
Qed.

(** Once the checks have passed, [GetGradient] is the kernel run on the
    reshaped buffer. *)
Lemma GetGradient_run hdr ctx self preds info iter out :
  let n := length (alpha_ self) in
  (iter = 0 → CheckInitInputs hdr info = OK tt) →
  length (quantile_alpha (param_ self)) = n → n ≠ 0%nat →
  Targets hdr self info = OK (Z.of_nat n) →
  Z.of_nat (length preds) = to_size_t (num_row_ info * Z.of_nat n) →
  (Shape (labels info)).2 = 1 →
  GetGradient hdr ctx self preds info iter out
  = for_each (schedule ctx (grid (Z.to_nat (num_row_ info)) n))
      (kernel_body (gradient_cell preds info (alpha_ self) (Z.of_nat n)))
      (Reshape (MkGradientPair Float.zero Float.zero)
               (num_row_ info) (Z.of_nat n) out).
Proof.
  intros n Hc Hlen Hn0 HT Hpreds Hcols. unfold GetGradient.
  erewrite ST_bind_step; last first.
  { instantiate (1 := out). instantiate (1 := tt).
    destruct (Z.eqb_spec iter 0) as [Hi|Hi]; [|done].
    unfold lift. by rewrite Hc. }
  rewrite Hlen. fold n. rewrite Z.eqb_refl.
  erewrite ST_bind_step by apply CHECK_true.
  rewrite HT. erewrite ST_bind_step by (by apply lift_OK).
  replace (negb (Z.of_nat n =? 0)) with true
    by (symmetry; apply negb_true_iff, Z.eqb_neq; lia).
  erewrite ST_bind_step by apply CHECK_true.
  rewrite Z.leb_refl.
  erewrite ST_bind_step by apply CHECK_true.
  rewrite Hpreds, Z.eqb_refl.
  erewrite ST_bind_step by apply CHECK_true.
  rewrite Hcols. simpl (1 =? 1).
  erewrite ST_bind_step by apply CHECK_true.
  erewrite ST_bind_step by reflexivity.
  unfold ElementWiseKernel.
  erewrite ST_bind_step by reflexivity.
  simpl. by rewrite Nat2Z.id.
Qed.

(** Whether [GetGradient] returns does not depend on the backend, on the
    order in which it visits the grid, or on the previous content of the
    output buffer. *)
Lemma GetGradient_returns_again hdr ctx self preds info iter out out' ctx' iter' out0 :
  GetGradient hdr ctx self preds info iter out = (OK tt, out') →
  (iter' = 0 → CheckInitInputs hdr info = OK tt) →
  ∃ out'', GetGradient hdr ctx' self preds info iter' out0 = (OK tt, out'').
Proof.
  intros H Hc'.
  apply GetGradient_OK in H as (_ & Hlen & Hn0 & HT & Hp & Hcols & _ & Hl & Hcell).
  rewrite GetGradient_run by done.
  apply for_each_store_succeeds.
  intros [i j] [Hi Hj]%elem_of_schedule.
  destruct (Hcell i j Hi Hj) as (gp & Hgp & Hout).
  exists gp. split; [done|].
  rewrite length_Reshape. simpl. rewrite Nat2Z.id.
  apply lookup_lt_Some in Hout. unfold offset. simpl. lia.
Qed.

(** A well-formed call of [GetGradient] returns. *)
Lemma GetGradient_succeeds hdr ctx self preds info iter out :
  (iter = 0 → CheckInitInputs hdr info = OK tt) →
  Configured self →
  (Shape (labels info)).2 = 1 →
  Z.of_nat (length (alpha_ self)) < 2 ^ bst_target_bits hdr →
  Z.of_nat (length (alpha_ self)) < 2 ^ 64 →
  0 ≤ num_row_ info →
  num_row_ info * Z.of_nat (length (alpha_ self)) < 2 ^ 64 →
  Z.of_nat (length preds) = num_row_ info * Z.of_nat (length (alpha_ self)) →
  (Z.to_nat (num_row_ info) ≤ length (Data (labels info)))%nat →
  (weights_ info = [] ∨ (Z.to_nat (num_row_ info) ≤ length (weights_ info))%nat) →
  ∃ out', GetGradient hdr ctx self preds info iter out = (OK tt, out').
Proof.
  intros Hc Hconf Hcols Hb Hs Hrows Hprod Hpreds Hlab Hw.
  pose proof (Targets_single_OK hdr self info Hconf Hcols Hb Hs) as HT.
  destruct Hconf as [Ha Hne].
  set (n := length (alpha_ self)) in *.
  assert (n ≠ 0%nat) as Hn0 by (subst n; by destruct (alpha_ self)).
  assert (to_size_t (num_row_ info * Z.of_nat n) = num_row_ info * Z.of_nat n)
    as Hsize by (unfold to_size_t; rewrite Z.mod_small; lia).
  rewrite GetGradient_run;
    [|done|by rewrite <- Ha|done|done
     |etrans; [exact Hpreds|symmetry; exact Hsize]|done].
  apply for_each_store_succeeds.
  intros [i j] [Hi Hj]%elem_of_schedule.
  fold n in Hj |- *. rewrite length_Reshape, Hsize. simpl. rewrite Nat2Z.id.
  unfold offset. simpl.
  destruct (lookup_lt_is_Some_2 preds (i * n + j)%nat) as [p Hp]; [nia|].
  destruct (lookup_lt_is_Some_2 (Data (labels info)) i) as [y Hy]; [lia|].
  destruct (lookup_lt_is_Some_2 (alpha_ self) j) as [a Hal]; [done|].
  assert (∃ w, OptionalWeights (weights_ info) i = OK w) as [w Hwi].
  { destruct Hw as [->|Hw]; [by exists Float.one|].
    destruct (lookup_lt_is_Some_2 (weights_ info) i) as [w Hwi]; [lia|].
    exists w. apply OptionalWeights_OK. right. split; [|done].
    intros Hnil. by rewrite Hnil in Hwi. }
  exists (pinball_gradient p y w a). split; [|nia].
  apply gradient_cell_OK.
  exists p, y, w, a. rewrite Hcols, Nat2Z.id.
  replace (i * Z.to_nat 1 + 0)%nat with i by lia. done.
Qed.

(** C2 (as amended). For a configured objective, [Targets] fails with
    [UnsupportedShapeError] exactly when labels are expected and the label
    matrix does not have exactly one column (no column at all included);
    otherwise it returns [|levels| * max(1, labelColumns)] as a target count
    of [bst_target_bits] bits, which is that product itself when the product
    fits; for single-target labels it returns [|levels|]. *)
Theorem Targets_spec hdr self info :
  Configured self →
  let L := Z.of_nat (length (alpha_ self)) in
  let cols := (Shape (labels info)).2 in
  (ShouldHaveLabels info = true ∧ cols ≠ 1 →
   Targets hdr self info = Err UnsupportedShapeError)
  ∧ (¬ (ShouldHaveLabels info = true ∧ cols ≠ 1) →
     Targets hdr self info
     = OK (((L * Z.max 1 cols) mod 2 ^ 64) mod 2 ^ bst_target_bits hdr))
  ∧ (¬ (ShouldHaveLabels info = true ∧ cols ≠ 1) →
     L * Z.max 1 cols < 2 ^ 64 → L * Z.max 1 cols < 2 ^ bst_target_bits hdr →
     Targets hdr self info = OK (L * Z.max 1 cols))
  ∧ (cols = 1 → L < 2 ^ 64 → L < 2 ^ bst_target_bits hdr →
     Targets hdr self info = OK L).
Proof.
  intros [Ha Hne] L cols.
  assert (¬ (ShouldHaveLabels info = true ∧ cols ≠ 1) →
          Targets hdr self info
          = OK (((L * Z.max 1 cols) mod 2 ^ 64) mod 2 ^ bst_target_bits hdr))
    as Hok.
  { intros Hn. apply Targets_OK. rewrite <- Ha. repeat split; try done.
    intros Hs. destruct (decide (cols = 1)); [done|]. tauto. }
  repeat split.
  - intros [Hs Hc]. unfold Targets. rewrite <- Ha, Z.eqb_refl, Hs. simpl.
    fold cols. by apply Z.eqb_neq in Hc as ->.
  - done.
  - intros Hn H64 Hb. rewrite Hok by done.
    rewrite (Z.mod_small _ (2 ^ 64)) by lia. by rewrite Z.mod_small by lia.
  - intros Hc H64 Hb. rewrite Hok by tauto. rewrite Hc.
    replace (Z.max 1 1) with 1 by lia. rewrite Z.mul_1_r.
    rewrite (Z.mod_small _ (2 ^ 64)) by lia. by rewrite Z.mod_small by lia.
Qed.

(** C7 (as amended). On a configured objective whose iteration-0 input
    check passes, [GetGradient] reports the first failing check in source
    order: [UnsupportedShapeError] when labels are expected and the label
    matrix does not have exactly one column; otherwise
    [ShapeMismatchError] when the prediction buffer size differs from
    [num_rows * targetCount] (or the target count is below the number of
    levels); otherwise [UnsupportedShapeError] when the label matrix does not
    have exactly one column. In each of these failures nothing is written:
    the output buffer is left as it was. *)
Theorem GetGradient_shape_errors hdr ctx self preds info iter out :
  (iter = 0 → CheckInitInputs hdr info = OK tt) →
  Configured self →
  let L := Z.of_nat (length (alpha_ self)) in
  let cols := (Shape (labels info)).2 in
  (ShouldHaveLabels info = true → cols ≠ 1 →
   GetGradient hdr ctx self preds info iter out = (Err UnsupportedShapeError, out))
  ∧ (∀ nt, Targets hdr self info = OK nt →
       (nt < L ∨ Z.of_nat (length preds) ≠ to_size_t (num_row_ info * nt) →
        GetGradient hdr ctx self preds info iter out
        = (Err ShapeMismatchError, out))
       ∧ (L ≤ nt → Z.of_nat (length preds) = to_size_t (num_row_ info * nt) →
          cols ≠ 1 →
          GetGradient hdr ctx self preds info iter out
          = (Err UnsupportedShapeError, out))).
Proof.
  intros Hc [Ha Hne] L cols.
  assert ((if iter =? 0 then lift (CheckInitInputs hdr info) else mret tt) out
          = (OK tt, out)) as H0.
  { destruct (Z.eqb_spec iter 0) as [Hi|Hi]; [|done]. unfold lift. by rewrite Hc. }
  assert (negb (L =? 0) = true) as HL0.
  { apply negb_true_iff, Z.eqb_neq. subst L.
    destruct (alpha_ self); [done|simpl; lia]. }
  split; [|intros nt Hnt; split].
  - intros Hs Hcols. unfold GetGradient.
    rewrite (ST_bind_step _ _ _ _ _ H0), <- Ha, Z.eqb_refl.
    erewrite ST_bind_step by apply CHECK_true.
    apply ST_bind_Err. unfold lift, Targets.
    rewrite <- Ha, Z.eqb_refl, Hs. simpl. fold cols.
    by apply Z.eqb_neq in Hcols as ->.
  - intros Hbad. unfold GetGradient.
    rewrite (ST_bind_step _ _ _ _ _ H0), <- Ha, Z.eqb_refl.
    erewrite ST_bind_step by apply CHECK_true.
    rewrite Hnt. erewrite ST_bind_step by (by apply lift_OK).
    fold L. rewrite HL0. erewrite ST_bind_step by apply CHECK_true.
    destruct (Z.leb_spec L nt) as [Hle|Hlt]; [|done].
    erewrite ST_bind_step by apply CHECK_true.
    destruct Hbad as [?|Hp]; [lia|].
    by apply Z.eqb_neq in Hp as ->.
  - intros Hle Hp Hcols. unfold GetGradient.
    rewrite (ST_bind_step _ _ _ _ _ H0), <- Ha, Z.eqb_refl.
    erewrite ST_bind_step by apply CHECK_true.
    rewrite Hnt. erewrite ST_bind_step by (by apply lift_OK).
    fold L. rewrite HL0. erewrite ST_bind_step by apply CHECK_true.
    apply Z.leb_le in Hle as ->.
    erewrite ST_bind_step by apply CHECK_true.
    apply Z.eqb_eq in Hp as ->.
    erewrite ST_bind_step by apply CHECK_true.
    fold cols. by apply Z.eqb_neq in Hcols as ->.
Qed.

(** C10. [GetGradient] is deterministic and pure cell by cell. Of two calls
    that return -- whatever the backend and the order in which it visits the
    grid, the iteration number, the previous content of the output buffer --
    the pairs at cell [(i, j)] agree as soon as [prediction(i,j)],
    [label(i)], [weight(i)] and [alpha(j)] agree; hence two calls with equal
    predictions, labels, weights and quantile set leave identical gradient
    matrices. Nor does it depend on the order of evaluation whether the call
    returns: a call that has returned returns again under any other
    schedule and from any other buffer. *)
Theorem GetGradient_deterministic
    hdr1 hdr2 ctx1 ctx2 self1 self2 preds1 preds2 info1 info2
    iter1 iter2 out1 out2 out1' out2' :
  GetGradient hdr1 ctx1 self1 preds1 info1 iter1 out1 = (OK tt, out1') →
  GetGradient hdr2 ctx2 self2 preds2 info2 iter2 out2 = (OK tt, out2') →
  let L1 := length (alpha_ self1) in
  let L2 := length (alpha_ self2) in
  (∀ i j,
     (i < Z.to_nat (num_row_ info1))%nat → (i < Z.to_nat (num_row_ info2))%nat →
     (j < L1)%nat → (j < L2)%nat →
     preds1 !! (i * L1 + j)%nat = preds2 !! (i * L2 + j)%nat →
     Data (labels info1) !! i = Data (labels info2) !! i →
     OptionalWeights (weights_ info1) i = OptionalWeights (weights_ info2) i →
     alpha_ self1 !! j = alpha_ self2 !! j →
     Data out1' !! (i * L1 + j)%nat = Data out2' !! (i * L2 + j)%nat)
  ∧ (preds1 = preds2 → Data (labels info1) = Data (labels info2) →
     weights_ info1 = weights_ info2 → alpha_ self1 = alpha_ self2 →
     num_row_ info1 = num_row_ info2 → 0 ≤ num_row_ info1 →
     out1' = out2')
  ∧ (∀ ctx' iter' out0,
       (iter' = 0 → CheckInitInputs hdr1 info1 = OK tt) →
       ∃ out'', GetGradient hdr1 ctx' self1 preds1 info1 iter' out0
                = (OK tt, out'')).
Proof.
  intros H1 H2 L1 L2.
  assert (∀ ctx' iter' out0,
       (iter' = 0 → CheckInitInputs hdr1 info1 = OK tt) →
       ∃ out'', GetGradient hdr1 ctx' self1 preds1 info1 iter' out0
                = (OK tt, out'')) as Hagain.
  { intros ctx' iter' out0. by apply (GetGradient_returns_again _ _ _ _ _ _ _ _ _ _ _ H1). }
  apply GetGradient_OK in H1 as (_ & _ & Hn1 & _ & Hp1 & Hc1 & Hs1 & Hl1 & Hcell1).
  apply GetGradient_OK in H2 as (_ & _ & Hn2 & _ & Hp2 & Hc2 & Hs2 & Hl2 & Hcell2).
  fold L1 in Hn1, Hp1, Hs1, Hcell1. fold L2 in Hn2, Hp2, Hs2, Hcell2.
  assert (∀ i j,
     (i < Z.to_nat (num_row_ info1))%nat → (i < Z.to_nat (num_row_ info2))%nat →
     (j < L1)%nat → (j < L2)%nat →
     preds1 !! (i * L1 + j)%nat = preds2 !! (i * L2 + j)%nat →
     Data (labels info1) !! i = Data (labels info2) !! i →
     OptionalWeights (weights_ info1) i = OptionalWeights (weights_ info2) i →
     alpha_ self1 !! j = alpha_ self2 !! j →
     Data out1' !! (i * L1 + j)%nat = Data out2' !! (i * L2 + j)%nat) as Hcellwise.
  { intros i j Hi1 Hi2 Hj1 Hj2 Hp Hy Hw Ha.
    destruct (Hcell1 i j Hi1 Hj1) as (gp1 & Hg1 & ->).
    destruct (Hcell2 i j Hi2 Hj2) as (gp2 & Hg2 & ->).
    apply gradient_cell_OK in Hg1 as (p1 & y1 & w1 & a1 & Hp1' & Hy1 & Hw1 & Ha1 & ->).
    apply gradient_cell_OK in Hg2 as (p2 & y2 & w2 & a2 & Hp2' & Hy2 & Hw2 & Ha2 & ->).
    rewrite Nat2Z.id in Hp1', Hp2'. rewrite Hc1 in Hy1. rewrite Hc2 in Hy2.
    replace (i * Z.to_nat 1 + 0)%nat with i in Hy1, Hy2 by lia.
    congruence. }
  split; [done|]. split; [|done].
  intros <- Hlab Hws Hal Hrows Hpos.
  assert (L2 = L1) as HL by (subst L1 L2; by rewrite Hal).
  destruct out1' as [d1 s1], out2' as [d2 s2]. simpl in *.
  f_equal; [|rewrite HL in Hs2; congruence].
  apply list_eq. intros k.
  destruct (decide (k < length preds1)%nat) as [Hk|Hk].
  2: { rewrite !lookup_ge_None_2; [done|lia..]. }
  assert (Z.of_nat (length preds1) ≤ num_row_ info1 * Z.of_nat L1) as Hle.
  { rewrite Hp1. apply mod_le_self; lia. }
  assert (k = (k / L1 * L1 + k mod L1)%nat) as Hkdiv.
  { rewrite (Nat.div_mod_eq k L1) at 1. lia. }
  assert (k mod L1 < L1)%nat as Hj by (apply Nat.mod_upper_bound; lia).
  assert (k / L1 < Z.to_nat (num_row_ info1))%nat as Hi.
  { apply Nat.Div0.div_lt_upper_bound. nia. }
  rewrite Hkdiv.
  specialize (Hcellwise (k / L1)%nat (k mod L1)%nat).
  rewrite HL in Hcellwise. apply Hcellwise; try done; try lia.
  - by rewrite Hlab.
  - by rewrite Hws.
  - by rewrite Hal.
Qed.

(** ** [InitEstimation] *)

Lemma length_Reshape1 n v : length (Reshape1 n v) = Z.to_nat n.
Proof.
  unfold Reshape1. rewrite length_take, length_app, length_replicate. lia.
Qed.

Lemma store1_OK t q v v' :
  store1 t q v = (OK tt, v') ↔ (t < length v)%nat ∧ v' = <[t := q]> v.
Proof.
  unfold store1, mbind, ST_bind, get, put, lift.
  destruct (decide _); split; try done.
  - by intros [= <-].
  - by intros [_ ->].
  - by intros [? _].
Qed.

Section HostLoop.
Context (levels : list float) (est : float → result float).

Lemma host_body_OK t v v' :
  host_body levels est t v = (OK tt, v') ↔
  ∃ a q, levels !! t = Some a ∧ est a = OK q
         ∧ (t < length v)%nat ∧ v' = <[t := q]> v.
Proof.
  unfold host_body. rewrite ST_bind_OK. split.
  - intros (a & s1 & [Ha%at_OK ->]%lift_OK & H).
    apply ST_bind_OK in H as (q & s2 & [Hq ->]%lift_OK & [? ->]%store1_OK).
    by exists a, q.
  - intros (a & q & Ha & Hq & Hlt & ->). exists a, v. split.
    + apply lift_OK. split; [by apply at_OK|done].
    + apply ST_bind_OK. exists q, v. split; [by apply lift_OK|].
      by apply store1_OK.
Qed.

Lemma host_loop_OK n a v v' :
  for_each (seq a n) (host_body levels est) v = (OK tt, v') →
  length v' = length v
  ∧ (∀ t, (a ≤ t < a + n)%nat →
       ∃ al q, levels !! t = Some al ∧ est al = OK q ∧ v' !! t = Some q)
  ∧ (∀ t, ¬ (a ≤ t < a + n)%nat → v' !! t = v !! t).
Proof.
  revert a v. induction n as [|n IH]; intros a v H; simpl in H.
  - injection H as <-. repeat split; try done. lia.
  - apply ST_bind_OK in H as ([] & v1 & Hb & Hl).
    apply host_body_OK in Hb as (al & q & Hal & Hq & Hlt & ->).
    apply IH in Hl as (Hlen & Hin & Hout). rewrite length_insert in Hlen.
    repeat split; [done|..].
    + intros t Ht. destruct (decide (t = a)) as [->|Hne].
      * exists al, q. repeat split; try done.
        rewrite Hout by lia. by apply list_lookup_insert_eq.
      * apply Hin. lia.
    + intros t Ht. rewrite Hout by lia. apply list_lookup_insert_ne. lia.
Qed.

Lemma host_loop_Err n a v e :
  (0 < n)%nat → (∃ al, levels !! a = Some al ∧ est al = Err e) →
  for_each (seq a n) (host_body levels est) v = (Err e, v).
Proof.
  intros Hn (al & Hal & He). destruct n as [|n]; [lia|]. simpl.
  apply ST_bind_Err. unfold host_body.
  erewrite ST_bind_step by (apply lift_OK; split; [by apply at_OK|done]).
  apply ST_bind_Err. unfold lift. by rewrite He.
Qed.

End HostLoop.

Lemma collect_OK {A} (l : list (result A)) xs :
  collect l = OK xs ↔ l = OK <$> xs.
Proof.
  revert xs. induction l as [|r l IH]; intros xs; simpl.
  - split; [by intros [= <-]|]. by destruct xs.
  - destruct r as [a|e]; simpl.
    + destruct (collect l) as [ys|e]; simpl.
      * split.
        -- intros [= <-]. simpl. f_equal. by apply IH.
        -- destruct xs as [|x xs]; [done|]. intros [= -> H].
           apply IH in H. by injection H as ->.
      * split; [done|]. destruct xs as [|x xs]; [done|]. intros [= -> H].
        by apply IH in H.
    + split; [done|]. by destruct xs.
Qed.

Lemma segment_OK {A} (data : list A) rows (it : nat → result A) s seg :
  (∀ k, it k = at_ data (k `mod` rows)) →
  segment rows it s = OK seg → seg = take rows data.
Proof.
  intros Hit. unfold segment. replace ((s + 1) * rows - s * rows)%nat with rows by lia.
  intros H%collect_OK. apply list_eq. intros r.
  assert (length seg = rows) as Hlen.
  { apply (f_equal length) in H. by rewrite !length_fmap, length_seq in H. }
  apply (f_equal (λ l, l !! r)) in H. rewrite !list_lookup_fmap in H.
  destruct (decide (r < rows)%nat) as [Hr|Hr].
  - rewrite lookup_seq_lt in H by done. simpl in H. rewrite Hit in H.
    replace ((s * rows + r) `mod` rows)%nat with r in H.
    2: { rewrite Nat.add_comm, Nat.Div0.mod_add. symmetry. by apply Nat.mod_small. }
    rewrite lookup_take_lt by done.
    destruct (seg !! r) as [x|] eqn:Hx; simpl in H; [|done].
    injection H as H. symmetry. by apply at_OK.
  - rewrite lookup_take_ge by lia. apply lookup_ge_None_2. lia.
Qed.

Lemma segments_OK {A} (data : list A) rows (it : nat → result A) n segs :
  (∀ k, it k = at_ data (k `mod` rows)) →
  collect (segment rows it <$> seq 0 n) = OK segs →
  segs = replicate n (take rows data).
Proof.
  intros Hit H%collect_OK. apply list_eq. intros s.
  assert (length segs = n) as Hlen.
  { apply (f_equal length) in H. by rewrite !length_fmap, length_seq in H. }
  apply (f_equal (λ l, l !! s)) in H. rewrite !list_lookup_fmap in H.
  destruct (decide (s < n)%nat) as [Hs|Hs].
  - rewrite lookup_seq_lt in H by done. simpl in H.
    rewrite lookup_replicate_2 by done.
    destruct (segs !! s) as [x|] eqn:Hx; simpl in H; [|done].
    injection H as H. f_equal. symmetry. by apply (segment_OK data) in H.
  - rewrite lookup_ge_None_2 by lia. symmetry. apply lookup_replicate_None. lia.
Qed.

Lemma zip_with_replicate_r {A B C} (f : A → B → C) (l : list A) (b : B) :
  zip_with f l (replicate (length l) b) = (λ a, f a b) <$> l.
Proof. induction l as [|a l IH]; simpl; [done|]. by rewrite IH. Qed.

Lemma zip_replicate {A B} n (a : A) (b : B) :
  zip (replicate n a) (replicate n b) = replicate n (a, b).
Proof. induction n as [|n IH]; simpl; [done|]. by rewrite IH. Qed.

Lemma InitEstimation_device_OK self info bs sw bs' :
  InitEstimation_device self info bs = (OK sw, bs') →
  (Shape (labels info)).2 = 1
  ∧ length bs = length (alpha_ self)
  ∧ sw = local_weight_sum info
  ∧ (device_estimate info <$> alpha_ self) = OK <$> bs'.
Proof.
  unfold InitEstimation_device, local_weight_sum, device_estimate. intros H.
  apply ST_bind_OK in H as ([] & s1 & [Hc%Z.eqb_eq ->]%CHECK_OK & H).
  apply ST_bind_OK in H as (base & s2 & [= <- <-] & H).
  apply ST_bind_OK in H as ([] & s3 & [Hl%Z.eqb_eq ->]%CHECK_OK & H).
  rewrite Hc in H. simpl (Z.to_nat 1) in H.
  assert (∀ k : nat, at_ (Data (labels info))
             (k `mod` Z.to_nat (Shape (labels info)).1 * 1 + 0)
          = at_ (Data (labels info))
                (k `mod` Z.to_nat (Shape (labels info)).1)) as Hf.
  { intros k. f_equal. lia. }
  repeat split; [done|lia|..]; case_bool_decide as Hw.
  - apply ST_bind_OK in H as (segs & s4 & [Hsegs ->]%lift_OK & H).
    apply ST_bind_OK in H as (qs & s5 & [Hqs ->]%lift_OK & H).
    by injection H as <- _.
  - apply ST_bind_OK in H as (segs & s4 & [Hsegs ->]%lift_OK & H).
    apply ST_bind_OK in H as (wsegs & s5 & [Hwsegs ->]%lift_OK & H).
    apply ST_bind_OK in H as (qs & s6 & [Hqs ->]%lift_OK & H).
    by injection H as <- _.
  - apply ST_bind_OK in H as (segs & s4 & [Hsegs ->]%lift_OK & H).
    apply ST_bind_OK in H as (qs & s5 & [Hqs ->]%lift_OK & H).
    injection H as _ <-.
    apply (segments_OK (Data (labels info))) in Hsegs as ->; [|done].
    unfold SegmentedQuantile in Hqs. apply collect_OK in Hqs.
    by rewrite zip_with_replicate_r in Hqs.
  - apply ST_bind_OK in H as (segs & s4 & [Hsegs ->]%lift_OK & H).
    apply ST_bind_OK in H as (wsegs & s5 & [Hwsegs ->]%lift_OK & H).
    apply ST_bind_OK in H as (qs & s6 & [Hqs ->]%lift_OK & H).
    injection H as _ <-.
    apply (segments_OK (Data (labels info))) in Hsegs as ->; [|done].
    apply (segments_OK (weights_ info)) in Hwsegs as ->; [|done].
    unfold SegmentedWeightedQuantile in Hqs. apply collect_OK in Hqs.
    by rewrite zip_replicate, zip_with_replicate_r in Hqs.
Qed.

Lemma InitEstimation_local_OK hdr ctx self info bs dat quantiles :
  InitEstimation_local hdr ctx self info bs = (OK dat, quantiles) →
  ∃ nt,
    alpha_ self ≠ [] ∧ Targets hdr self info = OK nt
    ∧ dat = (Double.mul (Double.of_float (Mean quantiles)) (local_weight_sum info),
             local_weight_sum info)
    ∧ (IsCUDA ctx = false →
       length quantiles = Z.to_nat nt
       ∧ ∀ t, (t < Z.to_nat nt)%nat →
           ∃ a q, quantile_alpha (param_ self) !! t = Some a
                  ∧ host_estimate info a = OK q ∧ quantiles !! t = Some q)
    ∧ (IsCUDA ctx = true →
       XGBOOST_USE_CUDA hdr = true ∧ (Shape (labels info)).2 = 1
       ∧ device_estimate info <$> alpha_ self = OK <$> quantiles).
Proof.
  unfold InitEstimation_local. intros H.
  apply ST_bind_OK in H as ([] & s1 & [Hne ->]%CHECK_OK & H).
  apply ST_bind_OK in H as (nt & s2 & [Hnt ->]%lift_OK & H).
  apply ST_bind_OK in H as ([] & s3 & [= <-] & H).
  apply ST_bind_OK in H as (sw & s4 & Hsw & H).
  apply ST_bind_OK in H as (base & s5 & [= <- <-] & [= <- <-]).
  apply negb_true_iff in Hne. case_bool_decide as Hne'; [done|]. clear Hne.
  exists nt. destruct (IsCUDA ctx) eqn:Hcuda.
  - destruct (XGBOOST_USE_CUDA hdr) eqn:Hbuild; [|done].
    apply InitEstimation_device_OK in Hsw as (Hc & _ & -> & Hq).
    repeat split; try done.
  - unfold InitEstimation_host in Hsw.
    apply ST_bind_OK in Hsw as ([] & s6 & Hloop & [= <- <-]).
    apply (host_loop_OK (quantile_alpha (param_ self)) (host_estimate info))
      in Hloop as (Hlen & Hin & _).
    rewrite length_Reshape1 in Hlen.
    repeat split; try done. intros t Ht. apply Hin. lia.
Qed.

Lemma InitEstimation_OK hdr ctx comm self info bs bs' :
  InitEstimation hdr ctx comm self info bs = (OK tt, bs') ↔
  ∃ dat quantiles red,
    InitEstimation_local hdr ctx self info bs = (OK dat, quantiles)
    ∧ GlobalSum comm dat = OK red
    ∧ bs' = [combine hdr red].
Proof.
  unfold InitEstimation. rewrite ST_bind_OK. split.
  - intros (dat & q & Hl & H). exists dat, q.
    apply ST_bind_OK in H as (red & s1 & [Hg ->]%lift_OK & H).
    exists red. repeat split; [done..|].
    apply ST_bind_OK in H as ([] & s2 & [= <-] & [= <-]).
    by rewrite length_Reshape1.
  - intros (dat & q & red & Hl & Hg & ->). exists dat, q. split; [done|].
    apply ST_bind_OK. exists red, q. split; [by apply lift_OK|].
    apply ST_bind_OK. exists tt, (Reshape1 1 q). split; [done|].
    unfold modify. by rewrite length_Reshape1.
Qed.



(** C5 (as amended). For two workers with local pairs [(meanq_1, sw_1)] and
    [(meanq_2, sw_2)], both workers obtain the same base score,
    [(meanq_1 * sw_1 + meanq_2 * sw_2) / (sw_1 + sw_2 + kRtEps)], computed in
    [double] and narrowed to [float]. *)
Theorem two_worker_aggregation hdr ctx1 ctx2 self info1 info2 bs1 bs2 d1 d2 q1 q2 :
  InitEstimation_local hdr ctx1 self info1 bs1 = (OK d1, q1) →
  InitEstimation_local hdr ctx2 self info2 bs2 = (OK d2, q2) →
  let meanq1 := Double.of_float (Mean q1) in
  let meanq2 := Double.of_float (Mean q2) in
  let sw1 := local_weight_sum info1 in
  let sw2 := local_weight_sum info2 in
  let score :=
    Double.to_float
      (Double.div (Double.add (Double.mul meanq1 sw1) (Double.mul meanq2 sw2))
         (Double.add (Double.add sw1 sw2) (Double.of_float (kRtEps hdr)))) in
  d1 = (Double.mul meanq1 sw1, sw1) ∧ d2 = (Double.mul meanq2 sw2, sw2)
  ∧ InitEstimation hdr ctx1 (MkCommunicator [] [d2] false) self info1 bs1
    = (OK tt, [score])
  ∧ InitEstimation hdr ctx2 (MkCommunicator [d1] [] false) self info2 bs2
    = (OK tt, [score]).
Proof.
  intros H1 H2 meanq1 meanq2 sw1 sw2 score.
  pose proof H1 as (nt1 & _ & _ & Hd1 & _)%InitEstimation_local_OK.
  pose proof H2 as (nt2 & _ & _ & Hd2 & _)%InitEstimation_local_OK.
  repeat split; [done..| |]; apply InitEstimation_OK.
  - exists d1, q1, (add2 d1 d2). repeat split; [done..|]. by subst d1 d2.
  - exists d2, q2, (add2 d1 d2). repeat split; [done..|]. by subst d1 d2.
Qed.

Lemma collect_const {A B} (f : A → result B) (l : list A) b :
  (∀ x, f x = OK b) → collect (f <$> l) = OK (replicate (length l) b).
Proof.
  intros Hf. induction l as [|a l IH]; csimpl; [done|]. by rewrite Hf, IH.
Qed.

(** Once the first checks have passed, a failure of the backend that
    leaves the resized base score as it was is the failure of the call. *)
Lemma InitEstimation_backend_Err hdr ctx comm self info bs nt e :
  alpha_ self ≠ [] → Targets hdr self info = OK nt →
  (if IsCUDA ctx then
     if XGBOOST_USE_CUDA hdr then InitEstimation_device self info
     else lift (Err GPUSupportError)
   else InitEstimation_host self info nt) (Reshape1 nt bs)
  = (Err e, Reshape1 nt bs) →
  InitEstimation hdr ctx comm self info bs = (Err e, Reshape1 nt bs).
Proof.
  intros Hne HT Hb.
  unfold InitEstimation. apply ST_bind_Err. unfold InitEstimation_local.
  rewrite (bool_decide_eq_false_2 (alpha_ self = [])) by exact Hne.
  simpl negb.
  erewrite ST_bind_step by apply CHECK_true.
  rewrite HT. erewrite ST_bind_step by (by apply lift_OK).
  erewrite ST_bind_step by reflexivity.
  by apply ST_bind_Err.
Qed.

(** The segments cut from a column without rows are empty. *)
Lemma segments_no_rows {A} (it : nat → result A) (n : nat) :
  collect (segment 0 it <$> seq 0 n) = OK (replicate n []).
Proof.
  rewrite (collect_const _ _ []); [by rewrite length_seq|].
  intros s. unfold segment.
  by replace ((s + 1) * 0 - s * 0)%nat with 0%nat by lia.
Qed.

(** C8 (as amended). [InitEstimation] has no emptiness check of its own. On
    a shard with zero samples (a label matrix without rows) a configured
    objective, whatever its level list, fails at the first failing check in
    source order: with [UnsupportedShapeError], the base score untouched,
    when labels are expected and the label matrix does not have exactly one
    column; otherwise, the target count [nt] being non-zero and the base
    score left resized to it,
    - on the host with [EmptyInputError], the failure of the estimator on
      an empty input, when there are no weights, and with
      [ShapeMismatchError] when there are (they are more than the labels);
    - on the accelerator with [GPUSupportError] in a build without CUDA,
      with [UnsupportedShapeError] when the label matrix does not have
      exactly one column, with [ShapeMismatchError] when the target count
      is not the number of levels, and otherwise with [EmptyInputError],
      with or without weights. *)
Theorem empty_shard_EmptyInputError hdr ctx comm self info bs :
  Configured self →
  (Shape (labels info)).1 = 0 → Data (labels info) = [] →
  (ShouldHaveLabels info = true → (Shape (labels info)).2 ≠ 1 →
   InitEstimation hdr ctx comm self info bs = (Err UnsupportedShapeError, bs))
  ∧ ∀ nt, Targets hdr self info = OK nt → 0 < nt →
      (IsCUDA ctx = false → weights_ info = [] →
       InitEstimation hdr ctx comm self info bs
       = (Err EmptyInputError, Reshape1 nt bs))
      ∧ (IsCUDA ctx = false → weights_ info ≠ [] →
         InitEstimation hdr ctx comm self info bs
         = (Err ShapeMismatchError, Reshape1 nt bs))
      ∧ (IsCUDA ctx = true → XGBOOST_USE_CUDA hdr = false →
         InitEstimation hdr ctx comm self info bs
         = (Err GPUSupportError, Reshape1 nt bs))
      ∧ (IsCUDA ctx = true → XGBOOST_USE_CUDA hdr = true →
         (Shape (labels info)).2 ≠ 1 →
         InitEstimation hdr ctx comm self info bs
         = (Err UnsupportedShapeError, Reshape1 nt bs))
      ∧ (IsCUDA ctx = true → XGBOOST_USE_CUDA hdr = true →
         (Shape (labels info)).2 = 1 →
         nt ≠ Z.of_nat (length (alpha_ self)) →
         InitEstimation hdr ctx comm self info bs
         = (Err ShapeMismatchError, Reshape1 nt bs))
      ∧ (IsCUDA ctx = true → XGBOOST_USE_CUDA hdr = true →
         (Shape (labels info)).2 = 1 →
         nt = Z.of_nat (length (alpha_ self)) →
         InitEstimation hdr ctx comm self info bs
         = (Err EmptyInputError, Reshape1 nt bs)).
Proof.
  intros [Ha Hne] Hrows Hdata. split.
  { intros Hs Hcols. unfold InitEstimation. apply ST_bind_Err.
    unfold InitEstimation_local.
    rewrite (bool_decide_eq_false_2 (alpha_ self = [])) by exact Hne.
    simpl negb. erewrite ST_bind_step by apply CHECK_true.
    apply ST_bind_Err. unfold lift, Targets.
    rewrite <- Ha, Z.eqb_refl, Hs. simpl.
    by apply Z.eqb_neq in Hcols as ->. }
  intros nt HT Hnt.
  assert (∃ a0 l, alpha_ self = a0 :: l) as (a0 & l & Hcons).
  { destruct (alpha_ self) as [|a0 l]; [done|]. by exists a0, l. }
  assert (∀ e, host_estimate info a0 = Err e →
            InitEstimation_host self info nt (Reshape1 nt bs)
            = (Err e, Reshape1 nt bs)) as Hhost.
  { intros e He. unfold InitEstimation_host. apply ST_bind_Err.
    apply (host_loop_Err _ (host_estimate info)); [lia|].
    exists a0. split; [|done]. by rewrite <- Ha, Hcons. }
  assert (∀ (k : unit → ST (list float) double) e,
            k tt (Reshape1 nt bs) = (Err e, Reshape1 nt bs) →
            (Shape (labels info)).2 = 1 →
            nt = Z.of_nat (length (alpha_ self)) →
            (CHECK ((Shape (labels info)).2 =? 1) UnsupportedShapeError ;;
             base ← get;
             CHECK (Z.of_nat (length base) =? Z.of_nat (length (alpha_ self)))
                   ShapeMismatchError ;;
             k tt) (Reshape1 nt bs) = (Err e, Reshape1 nt bs)) as Hdev.
  { intros k e Hk Hcols Hlen. rewrite Hcols. simpl (1 =? 1).
    erewrite ST_bind_step by apply CHECK_true.
    erewrite ST_bind_step by reflexivity.
    rewrite length_Reshape1, Hlen, Nat2Z.id, Z.eqb_refl.
    erewrite ST_bind_step by apply CHECK_true.
    by rewrite <- Hlen. }
  repeat split.
  - intros Hc Hw. apply InitEstimation_backend_Err; [done..|]. rewrite Hc.
    apply Hhost. unfold host_estimate.
    rewrite (bool_decide_eq_true_2 (weights_ info = [])) by exact Hw.
    by rewrite Hdata.
  - intros Hc Hw. apply InitEstimation_backend_Err; [done..|]. rewrite Hc.
    apply Hhost. unfold host_estimate, Size.
    rewrite (bool_decide_eq_false_2 (weights_ info = [])) by exact Hw.
    rewrite Hrows, Z.mul_0_l. change (to_size_t 0) with 0.
    destruct (weights_ info) as [|w ws]; [done|].
    assert ((Z.of_nat (length (w :: ws)) =? 0) = false) as ->
      by (apply Z.eqb_neq; simpl; lia).
    done.
  - intros Hc Hbuild. apply InitEstimation_backend_Err; [done..|].
    by rewrite Hc, Hbuild.
  - intros Hc Hbuild Hcols. apply InitEstimation_backend_Err; [done..|].
    rewrite Hc, Hbuild. unfold InitEstimation_device. apply ST_bind_Err.
    by apply Z.eqb_neq in Hcols as ->.
  - intros Hc Hbuild Hcols Hlen. apply InitEstimation_backend_Err; [done..|].
    rewrite Hc, Hbuild. unfold InitEstimation_device.
    rewrite Hcols. simpl (1 =? 1).
    erewrite ST_bind_step by apply CHECK_true.
    erewrite ST_bind_step by reflexivity.
    apply ST_bind_Err. rewrite length_Reshape1.
    assert ((Z.of_nat (Z.to_nat nt) =? Z.of_nat (length (alpha_ self))) = false)
      as -> by (apply Z.eqb_neq; lia).
    done.
  - intros Hc Hbuild Hcols Hlen. apply InitEstimation_backend_Err; [done..|].
    rewrite Hc, Hbuild. unfold InitEstimation_device.
    case_bool_decide as Hw.
    + apply (Hdev (λ _, _)); [|done..].
      rewrite Hrows. change (Z.to_nat 0) with 0%nat.
      rewrite segments_no_rows.
      erewrite ST_bind_step by (by apply lift_OK).
      apply ST_bind_Err. by rewrite Hcons.
    + apply (Hdev (λ _, _)); [|done..].
      rewrite Hrows. change (Z.to_nat 0) with 0%nat.
      rewrite !segments_no_rows.
      erewrite ST_bind_step by (by apply lift_OK).
      erewrite ST_bind_step by (by apply lift_OK).
      apply ST_bind_Err. by rewrite Hcons.
Qed.

(** ** Configuration documents *)

Lemma collect_numbers (l : list float) :
  collect (get_Number <$> (JsonNumber <$> l)) = OK l.
Proof. induction l as [|x l IH]; csimpl; [done|]. by rewrite IH. Qed.

Lemma FromJson_ToJson p p0 : FromJson (ToJson p) p0 = (OK tt, p).
Proof.
  unfold FromJson, ToJson, member.
  rewrite lookup_singleton_eq.
  erewrite ST_bind_step by (by apply lift_OK).
  cbv iota beta. rewrite collect_numbers.
  erewrite ST_bind_step by (by apply lift_OK).
  by destruct p.
Qed.

Lemma SaveConfig_object self (m : gmap string Json) :
  SaveConfig self (JsonObject m)
  = (OK tt, JsonObject (<["quantile_loss_param" := ToJson (param_ self)]>
                          (<["name" := JsonString Name]> m))).
Proof. done. Qed.

Lemma LoadConfig_wrong_name in_ s old :
  member in_ "name" = OK (JsonString s) → s ≠ Name →
  LoadConfig in_ old = (Err SchemaMismatchError, old).
Proof.
  intros Hm Hs. unfold LoadConfig. rewrite Hm. simpl.
  erewrite ST_bind_step by (by apply lift_OK).
  apply ST_bind_Err. by rewrite bool_decide_eq_false_2.
Qed.

(** C3. Serialising an objective into an object document and deserialising
    the result into any instance (a fresh one in particular) reproduces the
    quantile-level list, in the parameter and in [alpha_]; for a configured
    objective the instance read back is the objective itself.
    Deserialisation fails with [SchemaMismatchError], leaving the instance
    untouched, whenever the name tag of the document is a string other than
    ["reg:quantileerror"]. *)
Theorem config_round_trip self (m : gmap string Json) :
  (∃ doc,
     SaveConfig self (JsonObject m) = (OK tt, doc)
     ∧ member doc "name" = OK (JsonString "reg:quantileerror")
     ∧ (∀ old, ∃ self',
          LoadConfig doc old = (OK tt, self')
          ∧ quantile_alpha (param_ self') = quantile_alpha (param_ self)
          ∧ alpha_ self' = quantile_alpha (param_ self))
     ∧ (Configured self → LoadConfig doc fresh = (OK tt, self)))
  ∧ (∀ in_ s old,
       member in_ "name" = OK (JsonString s) → s ≠ "reg:quantileerror" →
       LoadConfig in_ old = (Err SchemaMismatchError, old)).
Proof.
  split; [|apply LoadConfig_wrong_name].
  eexists. split; [apply SaveConfig_object|].
  assert (∀ old,
    LoadConfig (JsonObject (<["quantile_loss_param" := ToJson (param_ self)]>
                              (<["name" := JsonString Name]> m))) old
    = (OK tt, MkObj (param_ self) (quantile_alpha (param_ self)))) as Hload.
  { intros old. unfold LoadConfig, member.
    rewrite (lookup_insert_ne _ "quantile_loss_param" "name") by done.
    rewrite !lookup_insert_eq. simpl.
    erewrite ST_bind_step by (by apply lift_OK).
    rewrite bool_decide_eq_true_2 by done.
    erewrite ST_bind_step by apply CHECK_true.
    erewrite ST_bind_step by (by apply lift_OK).
    unfold on_param_. erewrite ST_bind_step; last first.
    { by rewrite FromJson_ToJson. }
    done. }
  repeat split.
  - unfold member.
    rewrite (lookup_insert_ne _ "quantile_loss_param" "name") by done.
    by rewrite lookup_insert_eq.
  - intros old. eexists. split; [apply Hload|done].
  - intros [Ha _]. rewrite Hload, <- Ha. by destruct self.
Qed.

(** ** The estimators on a known dataset *)

(** C6. On the labels 1, 2, 3, 4, 5 and the level 0.5 the unweighted
    estimator returns the median 3, and the weighted estimator with uniform
    weights (all 1, or all 1/4) returns 3 as well; these are the estimates
    the host loop of [InitEstimation] stores for that level. *)
Theorem median_of_one_to_five :
  let half := Double.of_float (f32 1 2) in
  let labels := Float.of_Z <$> [1; 2; 3; 4; 5] in
  Quantile half labels = OK (Float.of_Z 3)
  ∧ WeightedQuantile half labels (replicate 5 Float.one) = OK (Float.of_Z 3)
  ∧ WeightedQuantile half labels (replicate 5 (f32 1 4)) = OK (Float.of_Z 3)
  ∧ (InitEstimation_host obj_median info5 1 [Float.zero]).2 = [Float.of_Z 3]
  ∧ (InitEstimation_host obj_median info5w 1 [Float.zero]).2 = [Float.of_Z 3].
Proof. vm_compute. repeat split. Qed.

(** ** Inputs on which the specification and the code part *)

(** C2, as stated, fails: a worker that is expected to hold labels and has
    no label column is not in the case "labels present and more than one
    column", yet [Targets] fails instead of returning
    [|levels| * max(1, 0)]. *)
Lemma Targets_unlabelled_counterexample :
  Configured obj3
  ∧ Targets reference_headers obj3 unlabelled = Err UnsupportedShapeError
  ∧ ¬ (let L := Z.of_nat (length (alpha_ obj3)) in
       let cols := (Shape (labels unlabelled)).2 in
       (ShouldHaveLabels unlabelled = true ∧ 1 < cols →
        Targets reference_headers obj3 unlabelled = Err UnsupportedShapeError)
       ∧ (¬ (ShouldHaveLabels unlabelled = true ∧ 1 < cols) →
          Targets reference_headers obj3 unlabelled = OK (L * Z.max 1 cols))).
Proof.
  split; [split; [reflexivity|discriminate]|]. split; [reflexivity|].
  intros [_ H]. simpl in H.
  assert (Targets reference_headers obj3 unlabelled = OK (3 * 1)) as H'.
  { apply H. intros [_ ?]. lia. }
  vm_compute in H'. discriminate H'.
Qed.

(** C5, as stated, fails: two workers, each with one sample of label 1, have
    the local pairs [(1, 1)] and [(1, 1)]; the weighted average is
    [(1 * 1 + 1 * 1) / (1 + 1) = 1], the base score is
    [2 / (2 + kRtEps)], which is below 1 also after narrowing to [float]. *)
Lemma aggregation_counterexample :
  let hdr := reference_headers in
  let one := Double.of_Z 1 in
  ∃ score,
    InitEstimation_local hdr host_ctx obj_median shard_one []
    = (OK (Double.mul one one, one), [Float.one])
    ∧ Double.of_float (Mean [Float.one]) = one
    ∧ InitEstimation hdr host_ctx
        (MkCommunicator [] [(Double.mul one one, one)] false)
        obj_median shard_one []
      = (OK tt, [score])
    ∧ score ≠ Double.to_float
                (Double.div (Double.add (Double.mul one one) (Double.mul one one))
                            (Double.add one one)).
Proof.
  eexists. split; [vm_compute; reflexivity|].
  split; [vm_compute; reflexivity|].
  split; [vm_compute; reflexivity|].
  vm_compute. discriminate.
Qed.

(** The base score of two workers also differs from the one a single
    process computes on the union of their shards. *)
Example aggregation_differs_from_single_process :
  let hdr := reference_headers in
  ∃ d2 q2 bs bs1,
    InitEstimation_local hdr host_ctx obj_median shard_tens [] = (OK d2, q2)
    ∧ InitEstimation hdr host_ctx (MkCommunicator [] [d2] false)
        obj_median shard_zero [] = (OK tt, bs)
    ∧ InitEstimation hdr host_ctx single_process obj_median shard_union []
      = (OK tt, bs1)
    ∧ bs ≠ bs1.
Proof.
  do 4 eexists. split; [vm_compute; reflexivity|].
  split; [vm_compute; reflexivity|].
  split; [vm_compute; reflexivity|].
  discriminate.
Qed.

(** C7, as stated, fails: with a label matrix of two columns and a
    prediction buffer of the wrong size both "whenever" apply, and the call
    reports the first check that fails, here [UnsupportedShapeError], not
    [ShapeMismatchError]. *)
Lemma GetGradient_counterexample :
  let r := GetGradient reference_headers host_ctx obj3 [] two_targets 0 no_gpair in
  let L := Z.of_nat (length (alpha_ obj3)) in
  let cols := (Shape (labels two_targets)).2 in
  Configured obj3
  ∧ r = (Err UnsupportedShapeError, no_gpair)
  ∧ ¬ ((Z.of_nat (length (@nil float)) ≠ num_row_ two_targets * (L * Z.max 1 cols) →
        r.1 = Err ShapeMismatchError)
       ∧ (1 < cols → r.1 = Err UnsupportedShapeError)).
Proof.
  split; [split; [reflexivity|discriminate]|]. split; [reflexivity|].
  intros [H _].
  assert ((GetGradient reference_headers host_ctx obj3 [] two_targets 0 no_gpair).1
          = Err ShapeMismatchError) as H'.
  { apply H. simpl. lia. }
  vm_compute in H'. discriminate H'.
Qed.

(** C8, as stated, fails: the shard of a worker that is expected to hold
    labels and has neither a sample nor a label column contains zero
    samples, yet [InitEstimation] of a configured objective fails in
    [Targets] with [UnsupportedShapeError], before any estimator is called;
    and on the host a shard without rows that carries a weight fails at the
    size check of the weights, with [ShapeMismatchError]. *)
Lemma empty_shard_counterexample :
  let r := InitEstimation reference_headers host_ctx single_process obj3
             unlabelled [] in
  let r' := InitEstimation reference_headers host_ctx single_process obj3
              shard_empty_weighted [] in
  Configured obj3
  ∧ num_row_ unlabelled = 0 ∧ Size (labels unlabelled) = 0
  ∧ Data (labels unlabelled) = []
  ∧ r = (Err UnsupportedShapeError, [])
  ∧ r.1 ≠ Err EmptyInputError
  ∧ num_row_ shard_empty_weighted = 0 ∧ Size (labels shard_empty_weighted) = 0
  ∧ Data (labels shard_empty_weighted) = []
  ∧ r'.1 = Err ShapeMismatchError
  ∧ r'.1 ≠ Err EmptyInputError.
Proof.
  split; [split; [reflexivity|discriminate]|].
  repeat split; try reflexivity; vm_compute; discriminate.
Qed.

(** ** The theorems at work on the sample data *)

Lemma Configured_obj3 : Configured obj3.
Proof. split; [reflexivity|discriminate]. Defined.

(** Sample 2 has label 3 and prediction 3 at level 0.5: a tie, the gradient
    is [(1 - 0.5) * 1]. *)
Lemma GetGradient_pinball_witness :
  let r := GetGradient reference_headers host_ctx obj3 preds5 info5 0 no_gpair in
  r.1 = OK tt
  ∧ ∃ gp, Data r.2 !! 7%nat = Some gp
          ∧ GetHess gp = Float.one
          ∧ GetGrad gp = Float.mul (Float.sub Float.one (f32 1 2)) Float.one.
Proof.
  intros r. split; [vm_compute; reflexivity|].
  assert (r = (OK tt, r.2)) as Hr by (vm_compute; reflexivity).
  destruct (GetGradient_pinball reference_headers host_ctx obj3 preds5 info5 0
              no_gpair r.2 2%nat 1%nat Hr)
    as (p & y & w & a & gp & Hp & Hy & Hw & Ha & Hout & _ & Hh & _ & _ & _ & Htie).
  - vm_compute. lia.
  - vm_compute. lia.
  - exists gp. split; [exact Hout|].
    injection Hp as <-. injection Hy as <-. injection Ha as <-.
    destruct Hw as [[_ ->]|[Hw _]]; [|by contradict Hw].
    split; [exact Hh|]. eapply Htie; reflexivity.
Defined.

Lemma Targets_spec_witness : Targets reference_headers obj3 info5 = OK 3.
Proof.
  destruct (Targets_spec reference_headers obj3 info5 Configured_obj3)
    as (_ & _ & _ & H).
  apply H; [reflexivity|vm_compute; reflexivity|vm_compute; reflexivity].
Defined.

Lemma config_round_trip_witness :
  ∃ doc, SaveConfig obj3 (JsonObject ∅) = (OK tt, doc)
         ∧ LoadConfig doc fresh = (OK tt, obj3)
         ∧ LoadConfig (JsonObject {[ "name" := JsonString "reg:squarederror" ]}) fresh
           = (Err SchemaMismatchError, fresh).
Proof.
  destruct (config_round_trip obj3 ∅) as [(doc & Hs & _ & _ & Hc) Hn].
  exists doc. split; [exact Hs|]. split; [exact (Hc Configured_obj3)|].
  apply (Hn _ "reg:squarederror"); [reflexivity|discriminate].
Defined.


Lemma two_worker_aggregation_witness :
  ∃ score,
    InitEstimation reference_headers host_ctx
      (MkCommunicator [] [(Double.of_Z 30, Double.of_Z 3)] false)
      obj_median shard_zero [] = (OK tt, [score])
    ∧ InitEstimation reference_headers reversed_ctx
        (MkCommunicator [(Double.zero, Double.of_Z 1)] [] false)
        obj_median shard_tens [] = (OK tt, [score])
    ∧ score = Double.to_float
                (Double.div (Double.add Double.zero (Double.of_Z 30))
                   (Double.add (Double.add (Double.of_Z 1) (Double.of_Z 3))
                               (Double.of_float micro))).
Proof.
  destruct (two_worker_aggregation reference_headers host_ctx reversed_ctx
              obj_median shard_zero shard_tens [] []
              (Double.zero, Double.of_Z 1) (Double.of_Z 30, Double.of_Z 3)
              [Float.zero] [Float.of_Z 10])
    as (_ & _ & H1 & H2); [vm_compute; reflexivity..|].
  eexists. split; [exact H1|]. split; [exact H2|]. vm_compute. reflexivity.
Defined.

Lemma GetGradient_shape_errors_witness :
  GetGradient reference_headers host_ctx obj3 (Float.of_Z <$> [1; 2]) info5 0
    stale_gpair = (Err ShapeMismatchError, stale_gpair)
  ∧ GetGradient reference_headers host_ctx obj3 [] two_targets 0 stale_gpair
    = (Err UnsupportedShapeError, stale_gpair).
Proof.
  split.
  - destruct (GetGradient_shape_errors reference_headers host_ctx obj3
                (Float.of_Z <$> [1; 2]) info5 0 stale_gpair)
      as [_ H]; [reflexivity|exact Configured_obj3|].
    destruct (H 3) as [H' _]; [reflexivity|].
    apply H'. right. vm_compute. discriminate.
  - destruct (GetGradient_shape_errors reference_headers host_ctx obj3
                [] two_targets 0 stale_gpair)
      as [H _]; [reflexivity|exact Configured_obj3|].
    apply H; [reflexivity|vm_compute; discriminate].
Defined.

(** A shard without rows and with one label column: the estimator's failure
    on the host without weights and on the accelerator with a weight, the
    size check on the host with a weight; and the shape check without a
    label column. *)
Lemma empty_shard_EmptyInputError_witness :
  InitEstimation reference_headers host_ctx single_process obj3 shard_empty []
  = (Err EmptyInputError, replicate 3 Float.zero)
  ∧ InitEstimation cuda_headers device_ctx single_process obj3
      shard_empty_weighted []
    = (Err EmptyInputError, replicate 3 Float.zero)
  ∧ InitEstimation reference_headers host_ctx single_process obj3
      shard_empty_weighted []
    = (Err ShapeMismatchError, replicate 3 Float.zero)
  ∧ InitEstimation reference_headers host_ctx single_process obj3 unlabelled
      [Float.one]
    = (Err UnsupportedShapeError, [Float.one]).
Proof.
  split; [|split; [|split]].
  - destruct (empty_shard_EmptyInputError reference_headers host_ctx
                single_process obj3 shard_empty [] Configured_obj3
                eq_refl eq_refl) as [_ H].
    destruct (H 3) as (H' & _); [vm_compute; reflexivity|lia|].
    apply H'; reflexivity.
  - destruct (empty_shard_EmptyInputError cuda_headers device_ctx
                single_process obj3 shard_empty_weighted [] Configured_obj3
                eq_refl eq_refl) as [_ H].
    destruct (H 3) as (_ & _ & _ & _ & _ & H');
      [vm_compute; reflexivity|lia|].
    apply H'; reflexivity.
  - destruct (empty_shard_EmptyInputError reference_headers host_ctx
                single_process obj3 shard_empty_weighted [] Configured_obj3
                eq_refl eq_refl) as [_ H].
    destruct (H 3) as (_ & H' & _); [vm_compute; reflexivity|lia|].
    apply H'; [reflexivity|discriminate].
  - destruct (empty_shard_EmptyInputError reference_headers host_ctx
                single_process obj3 unlabelled [Float.one] Configured_obj3
                eq_refl eq_refl) as [H _].
    apply H; [reflexivity|discriminate].
Defined.


(** The same call on a host that visits the cells in the opposite order, at
    another iteration and into a used buffer, leaves the same matrix. *)
Lemma GetGradient_deterministic_witness :
  let r1 := GetGradient reference_headers host_ctx obj3 preds5 info5 0 no_gpair in
  let r2 := GetGradient cuda_headers reversed_ctx obj3 preds5 info5 7 stale_gpair in
  r1.1 = OK tt ∧ r2.1 = OK tt ∧ r1.2 = r2.2.
Proof.
  intros r1 r2.
  assert (r1 = (OK tt, r1.2)) as H1 by (vm_compute; reflexivity).
  assert (r2 = (OK tt, r2.2)) as H2 by (vm_compute; reflexivity).
  split; [vm_compute; reflexivity|]. split; [vm_compute; reflexivity|].
  apply (proj1 (proj2 (GetGradient_deterministic
                  reference_headers cuda_headers host_ctx reversed_ctx
                  obj3 obj3 preds5 preds5 info5 info5 0 7 no_gpair stale_gpair
                  r1.2 r2.2 H1 H2)));
    try reflexivity.
  vm_compute. discriminate.
Defined.

(** * Further properties of the code *)

(** ** Use before configuration *)

(** X1. An objective whose [alpha_] was not copied from the parameter (the
    two lists differ in size) is rejected by every entry point with
    [ConfigurationError]: [Targets], [GetGradient] (once the iteration-0 input
    check has passed; the output buffer is left as it was) and
    [InitEstimation] (the base score is left as it was). *)
Theorem unconfigured_is_rejected hdr ctx comm self preds info iter out bs :
  length (quantile_alpha (param_ self)) ≠ length (alpha_ self) →
  Targets hdr self info = Err ConfigurationError
  ∧ ((iter = 0 → CheckInitInputs hdr info = OK tt) →
     GetGradient hdr ctx self preds info iter out = (Err ConfigurationError, out))
  ∧ InitEstimation hdr ctx comm self info bs = (Err ConfigurationError, bs).
Proof.
  intros Hne.
  assert ((Z.of_nat (length (quantile_alpha (param_ self)))
           =? Z.of_nat (length (alpha_ self))) = false) as Hb
    by (apply Z.eqb_neq; lia).
  assert (Targets hdr self info = Err ConfigurationError) as HT
    by (unfold Targets; by rewrite Hb).
  repeat split; [done|..].
  - intros Hc. unfold GetGradient.
    erewrite ST_bind_step; last first.
    { instantiate (1 := out). instantiate (1 := tt).
      destruct (Z.eqb_spec iter 0) as [Hi|Hi]; [|done].
      unfold lift. by rewrite Hc. }
    apply ST_bind_Err. by rewrite Hb.
  - unfold InitEstimation. apply ST_bind_Err. unfold InitEstimation_local.
    case_bool_decide as Ha; [done|]. simpl negb.
    erewrite ST_bind_step by apply CHECK_true.
    apply ST_bind_Err. unfold lift. by rewrite HT.
Qed.

(** ** The input check of iteration 0 *)

(** X2. [CheckInitInputs] is consulted at iteration 0 only. A failure of the
    check aborts a call at iteration 0 with that failure and the output
    buffer untouched; at any other iteration the call does not look at the
    check at all: it behaves the same under any other check. *)
Theorem input_check_only_at_iteration_zero hdr ctx self preds info out :
  (∀ e, CheckInitInputs hdr info = Err e →
        GetGradient hdr ctx self preds info 0 out = (Err e, out))
  ∧ (∀ iter check, iter ≠ 0 →
       GetGradient (with_check hdr check) ctx self preds info iter out
       = GetGradient hdr ctx self preds info iter out).
Proof.
  split.
  - intros e He. unfold GetGradient. apply ST_bind_Err. simpl.
    unfold lift. by rewrite He.
  - intros iter check Hi. unfold GetGradient.
    apply Z.eqb_neq in Hi. by rewrite Hi.
Qed.

(** ** Values that are not numbers *)

Lemma Float_sub_not_a_number p y :
  p = S754_nan ∨ y = S754_nan
  ∨ (∃ s, p = S754_infinity s ∧ y = S754_infinity s) →
  Float.ge (Float.sub p y) Float.zero = false.
Proof.
  intros [->|[->|(s & -> & ->)]].
  - done.
  - by destruct p.
  - by destruct s.
Qed.

(** X3. Where the prediction or the label is not a number, or both are the
    same infinity, the difference is not a number, the test [d >= 0] fails
    and the cell gets the under-prediction pair: gradient [- alpha * w],
    hessian [w]. Equal infinite prediction and label are not a tie. *)
Theorem not_a_number_takes_under_prediction
    hdr ctx self preds info iter out out' i j :
  GetGradient hdr ctx self preds info iter out = (OK tt, out') →
  (i < Z.to_nat (num_row_ info))%nat → (j < length (alpha_ self))%nat →
  ∃ p y w a gp,
    preds !! (i * length (alpha_ self) + j)%nat = Some p
    ∧ Data (labels info) !! i = Some y
    ∧ OptionalWeights (weights_ info) i = OK w
    ∧ alpha_ self !! j = Some a
    ∧ Data out' !! (i * length (alpha_ self) + j)%nat = Some gp
    ∧ (p = S754_nan ∨ y = S754_nan
       ∨ (∃ s, p = S754_infinity s ∧ y = S754_infinity s) →
       gp = MkGradientPair (Float.mul (Float.neg a) w) w).
Proof.
  intros H Hi Hj.
  apply GetGradient_OK in H as (_ & _ & _ & _ & _ & Hcols & _ & _ & Hcell).
  destruct (Hcell i j Hi Hj) as (gp & Hgp & Hout).
  apply gradient_cell_OK in Hgp as (p & y & w & a & Hp & Hy & Hw & Ha & ->).
  rewrite Hcols in Hy. rewrite Nat2Z.id in Hp.
  replace (i * Z.to_nat 1 + 0)%nat with i in Hy by lia.
  exists p, y, w, a, (pinball_gradient p y w a).
  repeat split; try done.
  intros Hnan%Float_sub_not_a_number. unfold pinball_gradient.
  by rewrite Hnan.
Qed.

(** ** No rows *)

(** X4. On a shard without rows a configured objective still computes
    gradients: the call returns and leaves an empty matrix of shape
    [(0, |levels|)], whatever the buffer held before. *)
Theorem GetGradient_no_rows hdr ctx self info iter out :
  Configured self →
  (iter = 0 → CheckInitInputs hdr info = OK tt) →
  (Shape (labels info)).2 = 1 →
  Z.of_nat (length (alpha_ self)) < 2 ^ bst_target_bits hdr →
  Z.of_nat (length (alpha_ self)) < 2 ^ 64 →
  num_row_ info = 0 →
  GetGradient hdr ctx self [] info iter out
  = (OK tt, MkMatrix [] (0, Z.of_nat (length (alpha_ self)))).
Proof.
  intros Hconf Hc Hcols Hb Hs Hrows.
  pose proof (Targets_single_OK hdr self info Hconf Hcols Hb Hs) as HT.
  destruct Hconf as [Ha Hne].
  rewrite GetGradient_run;
    [|done|by rewrite <- Ha|by destruct (alpha_ self)|done
     |by rewrite Hrows|done].
  rewrite Hrows. change (grid (Z.to_nat 0) (length (alpha_ self))) with (@nil (nat * nat)).
  pose proof (schedule_perm ctx []) as Hp.
  apply Permutation_nil_r in Hp. rewrite Hp. done.
Qed.

(** ** What a returning call has checked *)

(** X5. [GetGradient] returns only if the objective is configured (the two
    level lists have the same, non-zero, size), the label matrix has exactly
    one column -- also on a worker that is not expected to hold labels --, and
    the prediction buffer has [num_row_ * Targets(info)] elements (as a
    64-bit product); the matrix it leaves has [num_row_] rows, as many
    columns as [Targets] answers, which is the number of levels, and one pair
    per prediction. *)
Theorem GetGradient_returns_only_if hdr ctx self preds info iter out out' :
  GetGradient hdr ctx self preds info iter out = (OK tt, out') →
  let L := Z.of_nat (length (alpha_ self)) in
  (iter = 0 → CheckInitInputs hdr info = OK tt)
  ∧ length (quantile_alpha (param_ self)) = length (alpha_ self)
  ∧ alpha_ self ≠ []
  ∧ (Shape (labels info)).2 = 1
  ∧ Targets hdr self info = OK L
  ∧ Z.of_nat (length preds) = to_size_t (num_row_ info * L)
  ∧ Shape out' = (num_row_ info, L)
  ∧ length (Data out') = length preds.
Proof.
  intros H L.
  apply GetGradient_OK in H as (Hc & Hl & Hn & HT & Hp & Hcols & Hs & Hd & _).
  repeat split; try done.
  intros Hnil. by rewrite Hnil in Hn.
Qed.

(** ** Failures of [InitEstimation] *)

(** X6. On an accelerator context in a build without CUDA, [InitEstimation]
    of an objective that passes the first checks fails with
    [GPUSupportError]; the base score is left resized to the target count. *)
Theorem InitEstimation_gpu_without_cuda hdr ctx comm self info bs nt :
  alpha_ self ≠ [] → Targets hdr self info = OK nt →
  IsCUDA ctx = true → XGBOOST_USE_CUDA hdr = false →
  InitEstimation hdr ctx comm self info bs = (Err GPUSupportError, Reshape1 nt bs).
Proof.
  intros Hne HT Hcuda Hbuild.
  unfold InitEstimation. apply ST_bind_Err. unfold InitEstimation_local.
  rewrite (bool_decide_eq_false_2 (alpha_ self = [])) by exact Hne.
  simpl negb.
  erewrite ST_bind_step by apply CHECK_true.
  rewrite HT. erewrite ST_bind_step by (by apply lift_OK).
  erewrite ST_bind_step by reflexivity.
  apply ST_bind_Err. by rewrite Hcuda, Hbuild.
Qed.

(** X7. On the host, when weights are given and their number differs from
    the number of label elements, [InitEstimation] fails with
    [ShapeMismatchError] at the first level, before any estimate is stored. *)
Theorem InitEstimation_weights_size_mismatch hdr ctx comm self info bs nt :
  alpha_ self ≠ [] → Targets hdr self info = OK nt → 0 < nt →
  IsCUDA ctx = false →
  weights_ info ≠ [] →
  Z.of_nat (length (weights_ info)) ≠ Size (labels info) →
  InitEstimation hdr ctx comm self info bs
  = (Err ShapeMismatchError, Reshape1 nt bs).
Proof.
  intros Hne HT Hnt Hhost Hw Hsize.
  pose proof HT as (_ & _ & Hq & _)%Targets_OK.
  unfold InitEstimation. apply ST_bind_Err. unfold InitEstimation_local.
  rewrite (bool_decide_eq_false_2 (alpha_ self = [])) by exact Hne.
  simpl negb.
  erewrite ST_bind_step by apply CHECK_true.
  rewrite HT. erewrite ST_bind_step by (by apply lift_OK).
  erewrite ST_bind_step by reflexivity.
  apply ST_bind_Err. rewrite Hhost.
  unfold InitEstimation_host. apply ST_bind_Err.
  apply (host_loop_Err _ (host_estimate info)); [lia|].
  destruct (quantile_alpha (param_ self)) as [|a0 ?]; [done|].
  exists a0. split; [done|]. unfold host_estimate.
  rewrite (bool_decide_eq_false_2 (weights_ info = [])) by exact Hw.
  by apply Z.eqb_neq in Hsize as ->.
Qed.

(** X8. A failure of the reduction is fatal: with the link down
    [InitEstimation] never returns, whatever the local data, and when the
    local half had succeeded the call fails with [DistributedCommError]
    leaving in the base score the per-level estimates, not a single score. *)
Theorem reduction_failure_is_fatal hdr ctx comm self info bs :
  link_down comm = true →
  (InitEstimation hdr ctx comm self info bs).1 ≠ OK tt
  ∧ (∀ dat q,
       InitEstimation_local hdr ctx self info bs = (OK dat, q) →
       InitEstimation hdr ctx comm self info bs = (Err DistributedCommError, q)).
Proof.
  intros Hdown. split.
  - intros Heq.
    destruct (InitEstimation hdr ctx comm self info bs) as [r bs'] eqn:E.
    simpl in Heq. subst r.
    apply InitEstimation_OK in E as (dat & q & red & _ & Hg & _).
    unfold GlobalSum in Hg. by rewrite Hdown in Hg.
  - intros dat q Hl. unfold InitEstimation.
    rewrite (ST_bind_step _ _ _ _ _ Hl).
    apply ST_bind_Err. unfold lift, GlobalSum. by rewrite Hdown.
Qed.

(** ** The previous content of the base score *)

Lemma agree_refl {S A} (r : result A * S) : agree r r.
Proof. by split. Qed.

Lemma agree_bind {S A B} (m : ST S A) (f : A → ST S B) s1 s2 :
  agree (m s1) (m s2) → agree ((m ≫= f) s1) ((m ≫= f) s2).
Proof.
  unfold agree, mbind, ST_bind.
  destruct (m s1) as [[a1|e1] t1], (m s2) as [[a2|e2] t2]; simpl;
    intros [Hr Hs]; try done.
  - injection Hr as <-. rewrite (Hs a1 eq_refl). by split.
  - injection Hr as <-. by split.
Qed.

Lemma for_each_cons {S A} (a : A) l (body : A → ST S unit) s :
  for_each (a :: l) body s
  = match body a s with
    | (OK _, s') => for_each l body s'
    | (Err e, s') => (Err e, s')
    end.
Proof. done. Qed.

Lemma host_body_eq levels est a v :
  host_body levels est a v
  = match at_ levels a with
    | OK al =>
        match est al with
        | OK q => if decide (a < length v)%nat then (OK tt, <[a := q]> v)
                  else (Err OutOfBounds, v)
        | Err e => (Err e, v)
        end
    | Err e => (Err e, v)
    end.
Proof.
  unfold host_body, store1. unfold mbind, ST_bind, lift, get, put.
  destruct (at_ levels a) as [al|e]; [|done].
  destruct (est al) as [q|e]; [|done].
  simpl. by destruct (decide (a < length v)%nat).
Qed.

Lemma host_loop_agree levels est n a v1 v2 :
  length v1 = length v2 → (∀ t, (t < a)%nat → v1 !! t = v2 !! t) →
  (for_each (seq a n) (host_body levels est) v1).1
  = (for_each (seq a n) (host_body levels est) v2).1
  ∧ ((for_each (seq a n) (host_body levels est) v1).1 = OK tt →
     ∀ t, (t < a + n)%nat →
       (for_each (seq a n) (host_body levels est) v1).2 !! t
       = (for_each (seq a n) (host_body levels est) v2).2 !! t).
Proof.
  revert a v1 v2. induction n as [|n IH]; intros a v1 v2 Hlen Hlow.
  - split; [done|]. intros _ t Ht. apply Hlow. simpl in Ht. lia.
  - change (seq a (S n)) with (a :: seq (S a) n).
    rewrite !for_each_cons, !host_body_eq, <- Hlen.
    destruct (at_ levels a) as [al|e]; [|done].
    destruct (est al) as [q|e]; [|done].
    destruct (decide (a < length v1)%nat) as [Hlt|Hge]; [|done].
    replace (a + S n)%nat with (S a + n)%nat by lia.
    apply IH.
    + by rewrite !length_insert.
    + intros t Ht. destruct (decide (t = a)) as [->|Hne].
      * rewrite !list_lookup_insert_eq; [done|lia..].
      * rewrite !list_lookup_insert_ne by done. apply Hlow. lia.
Qed.

Lemma agree_Err {S A} e (s1 s2 : S) : agree (Err e : result A, s1) (Err e, s2).
Proof. by split. Qed.

Lemma host_agree self info nt v1 v2 :
  length v1 = Z.to_nat nt → length v2 = Z.to_nat nt →
  agree (InitEstimation_host self info nt v1) (InitEstimation_host self info nt v2).
Proof.
  intros H1 H2. unfold InitEstimation_host. apply agree_bind.
  set (levels := quantile_alpha (param_ self)).
  set (est := host_estimate info).
  change (agree (for_each (seq 0 (Z.to_nat nt)) (host_body levels est) v1)
                (for_each (seq 0 (Z.to_nat nt)) (host_body levels est) v2)).
  destruct (host_loop_agree levels est (Z.to_nat nt) 0 v1 v2) as [Hr Hs];
    [congruence|intros t Ht; lia|].
  split; [done|]. intros [] Hok.
  destruct (for_each (seq 0 (Z.to_nat nt)) (host_body levels est) v1)
    as [r1 w1] eqn:E1.
  destruct (for_each (seq 0 (Z.to_nat nt)) (host_body levels est) v2)
    as [r2 w2] eqn:E2.
  simpl in Hr, Hs, Hok |- *. assert (r2 = OK tt) as -> by congruence. subst r1.
  apply host_loop_OK in E1 as (Hl1 & _). apply host_loop_OK in E2 as (Hl2 & _).
  apply list_eq. intros t.
  destruct (decide (t < Z.to_nat nt)%nat) as [Ht|Ht].
  - apply Hs; [done|lia].
  - rewrite !lookup_ge_None_2; [done|lia..].
Qed.

Lemma agree_step {S A B} (m : ST S A) (f : A → ST S B) s1 s2 a t1 t2 :
  m s1 = (OK a, t1) → m s2 = (OK a, t2) → agree (f a t1) (f a t2) →
  agree ((m ≫= f) s1) ((m ≫= f) s2).
Proof. unfold mbind, ST_bind. by intros -> ->. Qed.

Lemma agree_get {S B} (f : S → ST S B) s1 s2 :
  agree (f s1 s1) (f s2 s2) → agree ((get ≫= f) s1) ((get ≫= f) s2).
Proof. done. Qed.

Lemma device_agree self info v1 v2 :
  length v1 = length v2 →
  agree (InitEstimation_device self info v1) (InitEstimation_device self info v2).
Proof.
  intros Hlen. unfold InitEstimation_device.
  destruct ((Shape (labels info)).2 =? 1); [|apply agree_Err].
  eapply agree_step; [apply CHECK_true..|].
  apply agree_get. cbv beta. rewrite <- Hlen.
  destruct (Z.of_nat (length v1) =? Z.of_nat (length (alpha_ self)));
    [|apply agree_Err].
  eapply agree_step; [apply CHECK_true..|].
  unfold agree, mbind, ST_bind, lift, put, mret, ST_ret.
  case_bool_decide.
  - destruct (collect _) as [segs|e]; [|done].
    by destruct (SegmentedQuantile _ _).
  - destruct (collect _) as [segs|e]; [|done].
    destruct (collect _) as [wsegs|e]; [|done].
    by destruct (SegmentedWeightedQuantile _ _).
Qed.

(** X9. [InitEstimation] does not read what the base score held before: from
    two different base scores it gives the same outcome, and when it returns
    it leaves the same base score. *)
Theorem InitEstimation_ignores_previous_base_score hdr ctx comm self info bs1 bs2 :
  (InitEstimation hdr ctx comm self info bs1).1
  = (InitEstimation hdr ctx comm self info bs2).1
  ∧ ((InitEstimation hdr ctx comm self info bs1).1 = OK tt →
     (InitEstimation hdr ctx comm self info bs1).2
     = (InitEstimation hdr ctx comm self info bs2).2).
Proof.
  cut (agree (InitEstimation hdr ctx comm self info bs1)
             (InitEstimation hdr ctx comm self info bs2)).
  { intros [Hr Hs]. split; [done|]. apply Hs. }
  unfold InitEstimation. apply agree_bind. unfold InitEstimation_local.
  destruct (negb (bool_decide (alpha_ self = []))); [|apply agree_Err].
  eapply agree_step; [apply CHECK_true..|].
  destruct (Targets hdr self info) as [nt|e]; [|apply agree_Err].
  eapply agree_step; [by apply lift_OK..|].
  eapply agree_step; [reflexivity..|].
  apply agree_bind.
  destruct (IsCUDA ctx).
  - destruct (XGBOOST_USE_CUDA hdr); [|apply agree_Err].
    apply device_agree. by rewrite !length_Reshape1.
  - apply host_agree; apply length_Reshape1.
Qed.

(** ** Documents *)

(** X10. [SaveConfig] writes the two members ["name"] and
    ["quantile_loss_param"] of an object document and nothing else: every
    other member stays as it was. Saving again changes nothing, and saving
    over the configuration of another objective gives the document that
    saving alone gives. *)
Theorem SaveConfig_touches_two_members self other (m : gmap string Json) :
  ∃ m' : gmap string Json,
    SaveConfig self (JsonObject m) = (OK tt, JsonObject m')
    ∧ m' !! "name" = Some (JsonString Name)
    ∧ m' !! "quantile_loss_param" = Some (ToJson (param_ self))
    ∧ (∀ k, k ≠ "name" → k ≠ "quantile_loss_param" → m' !! k = m !! k)
    ∧ SaveConfig self (JsonObject m') = (OK tt, JsonObject m')
    ∧ SaveConfig self (SaveConfig other (JsonObject m)).2
      = (OK tt, JsonObject m').
Proof.
  eexists. split; [apply SaveConfig_object|].
  split; [by rewrite lookup_insert_ne, lookup_insert_eq|].
  split; [by rewrite lookup_insert_eq|].
  split; [intros k Hn Hq; by rewrite !lookup_insert_ne|].
  split.
  - rewrite SaveConfig_object. do 2 f_equal. apply map_eq. intros k.
    destruct (decide (k = "quantile_loss_param")) as [->|Hq];
      [by rewrite !lookup_insert_eq|].
    rewrite (lookup_insert_ne _ "quantile_loss_param" k) by done.
    destruct (decide (k = "name")) as [->|Hn];
      [by rewrite lookup_insert_eq, lookup_insert_ne, lookup_insert_eq|].
    by rewrite !lookup_insert_ne.
  - rewrite (SaveConfig_object other). simpl. rewrite SaveConfig_object.
    do 2 f_equal. apply map_eq. intros k.
    destruct (decide (k = "quantile_loss_param")) as [->|Hq];
      [by rewrite !lookup_insert_eq|].
    rewrite !(lookup_insert_ne _ "quantile_loss_param" k) by done.
    destruct (decide (k = "name")) as [->|Hn];
      [by rewrite !lookup_insert_eq|].
    by rewrite !lookup_insert_ne.
Qed.

Lemma LoadConfig_OK in_ old self' :
  LoadConfig in_ old = (OK tt, self') →
  member in_ "name" = OK (JsonString Name)
  ∧ ∃ p p', member in_ "quantile_loss_param" = OK p
            ∧ FromJson p (param_ old) = (OK tt, p')
            ∧ self' = MkObj p' (quantile_alpha p').
Proof.
  unfold LoadConfig. intros H.
  apply ST_bind_OK in H as (name & s1 & [Hn ->]%lift_OK & H).
  apply ST_bind_OK in H as ([] & s2 & [Hc ->]%CHECK_OK & H).
  apply ST_bind_OK in H as (p & s3 & [Hp ->]%lift_OK & H).
  apply ST_bind_OK in H as ([] & s4 & Hf & [= <-]).
  apply bool_decide_eq_true in Hc as ->.
  split.
  - destruct (member in_ "name") as [j|e]; [|done]. simpl in Hn.
    destruct j; try done. by injection Hn as ->.
  - unfold on_param_ in Hf.
    destruct (FromJson p (param_ old)) as [r p'] eqn:E.
    injection Hf as -> <-. by exists p, p'.
Qed.

(** X11. Whenever [LoadConfig] returns, the name tag of the document was
    the identifier of the objective, and [alpha_] is a copy of the level list
    of the parameter. Nothing validates the list: if it is not empty,
    [Targets] answers on single-column labels (and wherever labels are not
    expected); if it is empty, [Targets] fails there with
    [ConfigurationError]. *)
Theorem LoadConfig_then_Targets in_ old self' :
  LoadConfig in_ old = (OK tt, self') →
  member in_ "name" = OK (JsonString "reg:quantileerror")
  ∧ alpha_ self' = quantile_alpha (param_ self')
  ∧ ∀ hdr info,
      (ShouldHaveLabels info = true → (Shape (labels info)).2 = 1) →
      (alpha_ self' ≠ [] → ∃ n, Targets hdr self' info = OK n)
      ∧ (alpha_ self' = [] → Targets hdr self' info = Err ConfigurationError).
Proof.
  intros (Hn & p & p' & _ & _ & ->)%LoadConfig_OK.
  split; [done|]. split; [done|]. intros hdr info Hl. simpl. split.
  - intros Hne. eexists. apply Targets_OK. simpl. repeat split; done.
  - intros Hnil. unfold Targets. simpl. rewrite Z.eqb_refl. simpl.
    destruct (ShouldHaveLabels info) eqn:Hs; simpl.
    + rewrite Hl by done. simpl. by rewrite bool_decide_eq_true_2.
    + by rewrite bool_decide_eq_true_2.
Qed.

(** X12. [LoadConfig] reads the name tag first and the parameter member
    second, and a document that lacks either, or whose name tag is not a
    string, is rejected with the instance untouched. *)
Theorem LoadConfig_malformed_document in_ old :
  (∀ e, member in_ "name" = Err e → LoadConfig in_ old = (Err e, old))
  ∧ (∀ v, member in_ "name" = OK v → (∀ s, v ≠ JsonString s) →
       LoadConfig in_ old = (Err JsonTypeError, old))
  ∧ (∀ e, member in_ "name" = OK (JsonString Name) →
       member in_ "quantile_loss_param" = Err e →
       LoadConfig in_ old = (Err e, old)).
Proof.
  unfold LoadConfig. repeat split.
  - intros e He. apply ST_bind_Err. unfold lift. by rewrite He.
  - intros v Hv Hs. apply ST_bind_Err. unfold lift. rewrite Hv. simpl.
    destruct v; try done. by destruct (Hs s).
  - intros e Hn Hp. rewrite Hn. simpl.
    erewrite ST_bind_step by (by apply lift_OK).
    rewrite bool_decide_eq_true_2 by done.
    erewrite ST_bind_step by apply CHECK_true.
    apply ST_bind_Err. unfold lift. by rewrite Hp.
Qed.

(** ** [Configure] *)

Lemma Configure_OK U V args old self' :
  Configure U V args old = (OK tt, self') ↔
  ∃ p', U args (param_ old) = (OK tt, p') ∧ V p' = OK tt
        ∧ self' = MkObj p' (quantile_alpha p').
Proof.
  unfold Configure. rewrite ST_bind_OK. split.
  - intros ([] & s1 & Hu & H).
    apply ST_bind_OK in H as ([] & s2 & Hv & [= <-]).
    apply ST_bind_OK in Hv as (s & s3 & [= <- <-] & [Hv ->]%lift_OK).
    unfold on_param_ in Hu.
    destruct (U args (param_ old)) as [r p'] eqn:E.
    injection Hu as -> <-. by exists p'.
  - intros (p' & Hu & Hv & ->).
    exists tt, (MkObj p' (alpha_ old)). split.
    + unfold on_param_. by rewrite Hu.
    + apply ST_bind_OK. exists tt, (MkObj p' (alpha_ old)). split; [|done].
      apply ST_bind_OK. exists (MkObj p' (alpha_ old)), (MkObj p' (alpha_ old)).
      split; [done|]. by apply lift_OK.
Qed.

(** X13. When [Configure] returns, the parameter is the updated one, it has
    passed validation, and [alpha_] is a copy of its level list, whatever
    [alpha_] held before; if validation accepts no empty list, the objective
    is configured, and [Targets] then answers the number of levels on
    single-column labels. *)
Theorem Configure_establishes_configuration U V args old self' :
  Configure U V args old = (OK tt, self') →
  U args (param_ old) = (OK tt, param_ self')
  ∧ V (param_ self') = OK tt
  ∧ alpha_ self' = quantile_alpha (param_ self')
  ∧ ((∀ p, V p = OK tt → quantile_alpha p ≠ []) →
     Configured self'
     ∧ ∀ hdr info,
         (Shape (labels info)).2 = 1 →
         Z.of_nat (length (alpha_ self')) < 2 ^ bst_target_bits hdr →
         Z.of_nat (length (alpha_ self')) < 2 ^ 64 →
         Targets hdr self' info = OK (Z.of_nat (length (alpha_ self')))).
Proof.
  intros (p' & Hu & Hv & ->)%Configure_OK. simpl.
  repeat split; try done.
  - by apply H.
  - intros hdr info Hc Hb Hs. apply Targets_single_OK; try done.
    split; [done|]. by apply H.
Qed.

(** X14. [Configure] updates the parameter before it validates it and
    copies the levels last. When the update or the validation fails, [alpha_]
    keeps its previous content while the parameter is what the update left;
    if the two level lists then differ in size, the objective -- even one
    that was configured before -- is rejected by [Targets] with
    [ConfigurationError]. *)
Theorem Configure_failure_leaves_levels U V args old e p' :
  (U args (param_ old) = (Err e, p')
   ∨ (U args (param_ old) = (OK tt, p') ∧ V p' = Err e)) →
  Configure U V args old = (Err e, MkObj p' (alpha_ old))
  ∧ (length (quantile_alpha p') ≠ length (alpha_ old) →
     ∀ hdr info,
       Targets hdr (Configure U V args old).2 info = Err ConfigurationError).
Proof.
  intros H.
  assert (Configure U V args old = (Err e, MkObj p' (alpha_ old))) as Hc.
  { unfold Configure. destruct H as [Hu|[Hu Hv]].
    - apply ST_bind_Err. unfold on_param_. by rewrite Hu.
    - erewrite ST_bind_step; last first.
      { unfold on_param_. by rewrite Hu. }
      apply ST_bind_Err.
      erewrite ST_bind_step by reflexivity.
      unfold lift. simpl. by rewrite Hv. }
  split; [done|]. intros Hne hdr info. rewrite Hc. simpl.
  unfold Targets. simpl.
  assert ((Z.of_nat (length (quantile_alpha p'))
           =? Z.of_nat (length (alpha_ old))) = false) as ->
    by (apply Z.eqb_neq; lia).
  done.
Qed.

(** ** The default metric *)

(** X15. [DefaultMetricConfig] fails with [ConfigurationError] on a parameter
    that was never initialised; otherwise it returns a document named
    ["quantile"] that carries the same ["quantile_loss_param"] member as the
    document [SaveConfig] writes. Because of its name, [LoadConfig] rejects
    it with [SchemaMismatchError] and leaves the instance untouched. *)
Theorem DefaultMetricConfig_document self :
  DefaultMetricConfig false self = Err ConfigurationError
  ∧ ∃ doc,
      DefaultMetricConfig true self = OK doc
      ∧ member doc "name" = OK (JsonString "quantile")
      ∧ (∀ m : gmap string Json,
           member (SaveConfig self (JsonObject m)).2 "quantile_loss_param"
           = member doc "quantile_loss_param")
      ∧ (∀ old, LoadConfig doc old = (Err SchemaMismatchError, old)).
Proof.
  split; [done|]. eexists. split; [reflexivity|].
  assert (member
            (JsonObject (<["quantile_loss_param" := ToJson (param_ self)]>
                           (<["name" := JsonString DefaultEvalMetric]> ∅)))
            "name" = OK (JsonString "quantile")) as Hn.
  { unfold member.
    by rewrite (lookup_insert_ne _ "quantile_loss_param" "name"),
               lookup_insert_eq. }
  split; [exact Hn|]. split.
  - intros m. rewrite SaveConfig_object. unfold member. simpl.
    by rewrite !lookup_insert_eq.
  - intros old. by apply (LoadConfig_wrong_name _ "quantile").
Qed.

(** ** More on [InitEstimation] *)

(** X16. [InitEstimation] rejects label matrices that do not have exactly
    one column with [UnsupportedShapeError]: through [Targets] when labels
    are expected (the base score is then untouched), and on the accelerator
    through its own check also when labels are not expected. *)
Theorem InitEstimation_multi_target hdr ctx comm self info bs :
  alpha_ self ≠ [] →
  length (quantile_alpha (param_ self)) = length (alpha_ self) →
  (Shape (labels info)).2 ≠ 1 →
  (ShouldHaveLabels info = true →
   InitEstimation hdr ctx comm self info bs = (Err UnsupportedShapeError, bs))
  ∧ (∀ nt, Targets hdr self info = OK nt →
       IsCUDA ctx = true → XGBOOST_USE_CUDA hdr = true →
       InitEstimation hdr ctx comm self info bs
       = (Err UnsupportedShapeError, Reshape1 nt bs)).
Proof.
  intros Hne Hlen Hcols.
  assert (∀ k : unit → ST (list float) (double * double),
    (CHECK (negb (bool_decide (alpha_ self = []))) ConfigurationError ≫= k) bs
    = k tt bs) as Hfirst.
  { intros k. rewrite (bool_decide_eq_false_2 (alpha_ self = [])) by exact Hne.
    simpl negb. by erewrite ST_bind_step by apply CHECK_true. }
  split.
  - intros Hs. unfold InitEstimation. apply ST_bind_Err.
    unfold InitEstimation_local. rewrite Hfirst.
    apply ST_bind_Err. unfold lift, Targets.
    rewrite Hlen, Z.eqb_refl, Hs. simpl.
    by apply Z.eqb_neq in Hcols as ->.
  - intros nt HT Hcuda Hbuild. unfold InitEstimation. apply ST_bind_Err.
    unfold InitEstimation_local. rewrite Hfirst, HT.
    erewrite ST_bind_step by (by apply lift_OK).
    erewrite ST_bind_step by reflexivity.
    apply ST_bind_Err. rewrite Hcuda, Hbuild.
    unfold InitEstimation_device. apply ST_bind_Err.
    by apply Z.eqb_neq in Hcols as ->.
Qed.

(** X17. [InitEstimation] returns only if [alpha_] is not empty, [Targets]
    answers, the reduction went through, an accelerator context comes with a
    CUDA build and single-column labels, and on the host the weights, when
    there are some, are as many as the label elements. *)
Theorem InitEstimation_returns_only_if hdr ctx comm self info bs bs' :
  InitEstimation hdr ctx comm self info bs = (OK tt, bs') →
  alpha_ self ≠ []
  ∧ link_down comm = false
  ∧ ∃ nt,
      Targets hdr self info = OK nt
      ∧ (IsCUDA ctx = true →
         XGBOOST_USE_CUDA hdr = true ∧ (Shape (labels info)).2 = 1)
      ∧ (IsCUDA ctx = false → 0 < nt → weights_ info ≠ [] →
         Z.of_nat (length (weights_ info)) = Size (labels info)).
Proof.
  intros (dat & q & red & Hl & Hg & _)%InitEstimation_OK.
  apply InitEstimation_local_OK in Hl as (nt & Hne & HT & _ & Hhost & Hdev).
  split; [done|]. split.
  { unfold GlobalSum in Hg. by destruct (link_down comm). }
  exists nt. split; [done|]. split.
  - intros Hc. by destruct (Hdev Hc) as (? & ? & _).
  - intros Hc Hnt Hw. destruct (Hhost Hc) as [_ Hest].
    destruct (Hest 0%nat) as (a & q0 & _ & Hq & _); [lia|].
    unfold host_estimate in Hq.
    rewrite (bool_decide_eq_false_2 (weights_ info = [])) in Hq by exact Hw.
    by destruct (Z.eqb_spec (Z.of_nat (length (weights_ info)))
                            (Size (labels info))).
Qed.

(** X18. The constant in the denominator keeps the base score a number when
    no weight is left: if the reduced 2-vector is [(0, 0)] and [kRtEps],
    promoted to [double], is finite and not zero, the base score is zero
    (the quotient [0 / 0] would not be a number). *)
Theorem zero_weight_gives_zero_score hdr ctx comm self info bs dat q s1 s2 s m e :
  InitEstimation_local hdr ctx self info bs = (OK dat, q) →
  GlobalSum comm dat = OK (S754_zero s1, S754_zero s2) →
  Double.of_float (kRtEps hdr) = S754_finite s m e →
  InitEstimation hdr ctx comm self info bs = (OK tt, [S754_zero (xorb s1 s)]).
Proof.
  intros Hl Hg Heps. apply InitEstimation_OK.
  exists dat, q, (S754_zero s1, S754_zero s2). repeat split; [done..|].
  unfold combine. by rewrite Heps.
Qed.

(** ** The further properties at work on the sample data *)

Lemma unconfigured_is_rejected_witness :
  Targets reference_headers half_configured info5 = Err ConfigurationError
  ∧ GetGradient reference_headers host_ctx half_configured preds5 info5 0
      stale_gpair = (Err ConfigurationError, stale_gpair)
  ∧ InitEstimation reference_headers host_ctx single_process half_configured
      info5 [Float.one] = (Err ConfigurationError, [Float.one]).
Proof.
  destruct (unconfigured_is_rejected reference_headers host_ctx single_process
              half_configured preds5 info5 0 stale_gpair [Float.one])
    as (HT & HG & HI); [simpl; lia|].
  split; [exact HT|]. split; [apply HG; reflexivity|exact HI].
Defined.

Lemma not_a_number_takes_under_prediction_witness :
  let r := GetGradient reference_headers host_ctx obj3 preds_nan info5 0 no_gpair in
  r.1 = OK tt
  ∧ Data r.2 !! 0%nat
    = Some (MkGradientPair (Float.mul (Float.neg (f32 1 10)) Float.one) Float.one).
Proof.
  intros r. split; [vm_compute; reflexivity|].
  assert (r = (OK tt, r.2)) as Hr by (vm_compute; reflexivity).
  destruct (not_a_number_takes_under_prediction reference_headers host_ctx obj3
              preds_nan info5 0 no_gpair r.2 0%nat 0%nat Hr)
    as (p & y & w & a & gp & Hp & _ & Hw & Ha & Hout & Hnan).
  - vm_compute. lia.
  - vm_compute. lia.
  - injection Hp as <-. injection Hw as <-. injection Ha as <-.
    etrans; [exact Hout|]. f_equal. apply Hnan. by left.
Defined.

Lemma GetGradient_no_rows_witness :
  GetGradient reference_headers reversed_ctx obj3 [] shard_empty 0 stale_gpair
  = (OK tt, MkMatrix [] (0, 3)).
Proof.
  apply (GetGradient_no_rows reference_headers reversed_ctx obj3 shard_empty 0
           stale_gpair).
  - exact Configured_obj3.
  - reflexivity.
  - reflexivity.
  - vm_compute. reflexivity.
  - vm_compute. reflexivity.
  - reflexivity.
Defined.

Lemma GetGradient_returns_only_if_witness :
  let r := GetGradient reference_headers host_ctx obj3 preds5 info5 0 stale_gpair in
  r.1 = OK tt ∧ Shape r.2 = (5, 3) ∧ length (Data r.2) = 15%nat.
Proof.
  intros r. split; [vm_compute; reflexivity|].
  assert (r = (OK tt, r.2)) as Hr by (vm_compute; reflexivity).
  destruct (GetGradient_returns_only_if reference_headers host_ctx obj3 preds5
              info5 0 stale_gpair r.2 Hr)
    as (_ & _ & _ & _ & _ & _ & Hs & Hl).
  split; [exact Hs|exact Hl].
Defined.

Lemma InitEstimation_gpu_without_cuda_witness :
  InitEstimation reference_headers device_ctx single_process obj3 info5 []
  = (Err GPUSupportError, replicate 3 Float.zero).
Proof.
  apply (InitEstimation_gpu_without_cuda reference_headers device_ctx
           single_process obj3 info5 [] 3).
  - discriminate.
  - reflexivity.
  - reflexivity.
  - reflexivity.
Defined.

Lemma InitEstimation_weights_size_mismatch_witness :
  InitEstimation reference_headers host_ctx single_process obj3
    info5_two_weights [] = (Err ShapeMismatchError, replicate 3 Float.zero).
Proof.
  apply (InitEstimation_weights_size_mismatch reference_headers host_ctx
           single_process obj3 info5_two_weights [] 3).
  - discriminate.
  - reflexivity.
  - reflexivity.
  - reflexivity.
  - discriminate.
  - vm_compute. discriminate.
Defined.

Lemma reduction_failure_is_fatal_witness :
  InitEstimation reference_headers host_ctx broken_link obj3 info5 []
  = (Err DistributedCommError, Float.of_Z <$> [1; 3; 5]).
Proof.
  destruct (reduction_failure_is_fatal reference_headers host_ctx broken_link
              obj3 info5 []) as [_ H]; [reflexivity|].
  eapply H. vm_compute. reflexivity.
Defined.

Lemma LoadConfig_then_Targets_witness :
  LoadConfig (SaveConfig obj3 (JsonObject ∅)).2 half_configured = (OK tt, obj3)
  ∧ ∃ n, Targets reference_headers obj3 info5 = OK n.
Proof.
  assert (LoadConfig (SaveConfig obj3 (JsonObject ∅)).2 half_configured
          = (OK tt, obj3)) as Hl by (vm_compute; reflexivity).
  split; [exact Hl|].
  destruct (LoadConfig_then_Targets _ _ _ Hl) as (_ & _ & H).
  destruct (H reference_headers info5) as [Hn _]; [reflexivity|].
  apply Hn. discriminate.
Defined.

Lemma Configure_establishes_configuration_witness :
  Configure (install_levels [f32 1 10; f32 1 2; f32 9 10]) validate_nonempty []
            half_configured = (OK tt, obj3)
  ∧ Configured obj3
  ∧ Targets reference_headers obj3 info5 = OK 3.
Proof.
  assert (Configure (install_levels [f32 1 10; f32 1 2; f32 9 10])
            validate_nonempty [] half_configured = (OK tt, obj3)) as Hc
    by reflexivity.
  split; [exact Hc|].
  destruct (Configure_establishes_configuration _ _ _ _ _ Hc)
    as (_ & _ & _ & H).
  destruct H as [Hconf HT].
  { intros p. unfold validate_nonempty. by case_bool_decide. }
  split; [exact Hconf|].
  apply (HT reference_headers info5);
    [reflexivity|vm_compute; reflexivity|vm_compute; reflexivity].
Defined.

Lemma Configure_failure_leaves_levels_witness :
  Configure (install_levels []) validate_nonempty [] obj3
  = (Err ConfigurationError, MkObj (MkParam []) (alpha_ obj3))
  ∧ Targets reference_headers
      (Configure (install_levels []) validate_nonempty [] obj3).2 info5
    = Err ConfigurationError.
Proof.
  destruct (Configure_failure_leaves_levels (install_levels [])
              validate_nonempty [] obj3 ConfigurationError (MkParam []))
    as [Hc HT]; [right; split; reflexivity|].
  split; [exact Hc|]. apply HT. simpl. lia.
Defined.

Lemma InitEstimation_multi_target_witness :
  InitEstimation reference_headers host_ctx single_process obj3 two_targets
    [Float.one] = (Err UnsupportedShapeError, [Float.one]).
Proof.
  destruct (InitEstimation_multi_target reference_headers host_ctx
              single_process obj3 two_targets [Float.one]) as [H _].
  - discriminate.
  - reflexivity.
  - vm_compute. discriminate.
  - apply H. reflexivity.
Defined.

Lemma InitEstimation_returns_only_if_witness :
  let r := InitEstimation reference_headers host_ctx single_process obj3 info5w [] in
  r.1 = OK tt
  ∧ Z.of_nat (length (weights_ info5w)) = Size (labels info5w).
Proof.
  intros r. split; [vm_compute; reflexivity|].
  assert (r = (OK tt, r.2)) as Hr by (vm_compute; reflexivity).
  destruct (InitEstimation_returns_only_if reference_headers host_ctx
              single_process obj3 info5w [] r.2 Hr)
    as (_ & _ & nt & HT & _ & H).
  assert (nt = 3) as -> by (vm_compute in HT; congruence).
  apply H; [reflexivity|lia|discriminate].
Defined.

Lemma zero_weight_gives_zero_score_witness :
  InitEstimation reference_headers host_ctx single_process obj3
    info5_zero_weights [] = (OK tt, [Float.zero]).
Proof.
  eapply (zero_weight_gives_zero_score reference_headers host_ctx
            single_process obj3 info5_zero_weights []
            _ _ false false false).
  - vm_compute. reflexivity.
  - vm_compute. reflexivity.
  - vm_compute. reflexivity.
Defined.
